(** * serial.c: the interrupt-driven UART queues of obd2-instruments (STM32)

    A shallow embedding of [STM32/serial.c]: the queue state structure
    [uart_fifo_type], the interrupt handler [ISR(USART2)], the foreground
    operations [uart_getch] and [uart_putch], and [setup_uart], followed by
    the properties of the two circular buffers.

    C types.  On the STM32 [unsigned] and [unsigned long] are 32 bits wide:
    they are integers of [Z] with the wrap-around [wrap32] written at every
    addition.  [unsigned char] and [char] objects are eight-bit patterns,
    modelled by [byte]; converting an integer to either keeps its low eight
    bits, and an [unsigned char] converts back to [int] zero-extended. *)

From Stdlib Require Import ZArith Lia.
From Stdlib Require Import Strings.Byte.
From stdpp Require Import base list.

Local Open Scope Z_scope.

(** ** Scalar conversions *)

Definition wrap32 (z : Z) : Z := z mod 2 ^ 32.

(** Integer to [unsigned char]: reduction modulo 256. *)
Definition uchar_of_int (z : Z) : byte :=
  match Byte.of_N (Z.to_N (z mod 256)) with
  | Some b => b
  | None => x00
  end.

(** [unsigned char] to [int]: the value, between 0 and 255. *)
Definition int_of_uchar (b : byte) : Z := Z.of_N (Byte.to_N b).

(** Integer to plain [char]: the same eight bits as [uchar_of_int].  How
    they read back as a number depends on the signedness of plain [char];
    the queue code only ever stores and returns the pattern. *)
Definition char_of_int (z : Z) : byte := uchar_of_int z.

(** ** Buffer sizes (serial.c, lines 57-58) *)

Definition UART_RXBUF_SIZE : Z := 16.
Definition UART_TXBUF_SIZE : Z := 128.

(** ** Arrays of [unsigned char]

    An array is a list of bytes indexed from 0.  Inside the bounds, reading
    and writing are list lookup and list update.  C leaves an access outside
    the bounds undefined; here a read outside yields [x00] and a write
    outside changes nothing.  No access leaves the bounds while the indices
    are valid, which every operation preserves. *)

Definition array_get (a : list byte) (i : Z) : byte :=
  default x00 (a !! Z.to_nat i).

Definition array_set (a : list byte) (i : Z) (c : byte) : list byte :=
  <[Z.to_nat i := c]> a.

(** ** The queue state structure (serial.c, lines 100-107) *)

Record uart_fifo_type : Type := Fifo {
  rxbuf : list byte;      (* unsigned char rxbuf[UART_RXBUF_SIZE] *)
  txbuf : list byte;      (* unsigned char txbuf[UART_TXBUF_SIZE] *)
  rxhead : Z;             (* volatile unsigned *)
  rxtail : Z;
  txhead : Z;
  txtail : Z
}.

(** ** The machine: [uart0], the two statistics counters and the USART

    [USART_BRR], [USART_SR], [USART_CR1], [USART_CR2] and [USART_CR3] hold
    the value last written by the program; [usart_intr] is the interrupt
    set by [INTR_SETENA(USART_Intr)]; [usart_dr] lists the bytes written
    to the data register [USART_DR], oldest first.  What the hardware puts
    into [USART_SR] and [USART_DR] is an input of the handler. *)

Record machine : Type := Machine {
  uart0 : uart_fifo_type;
  serial_txbytes : Z;     (* volatile unsigned long *)
  serial_rxbytes : Z;
  USART_BRR : Z;
  USART_SR : Z;
  USART_CR1 : Z;
  USART_CR2 : Z;
  USART_CR3 : Z;
  usart_intr : bool;
  usart_dr : list byte
}.

Definition with_uart0 (q : uart_fifo_type) (m : machine) : machine :=
  Machine q (serial_txbytes m) (serial_rxbytes m)
    (USART_BRR m) (USART_SR m) (USART_CR1 m) (USART_CR2 m) (USART_CR3 m)
    (usart_intr m) (usart_dr m).

Definition with_serial_txbytes (n : Z) (m : machine) : machine :=
  Machine (uart0 m) n (serial_rxbytes m)
    (USART_BRR m) (USART_SR m) (USART_CR1 m) (USART_CR2 m) (USART_CR3 m)
    (usart_intr m) (usart_dr m).

Definition with_serial_rxbytes (n : Z) (m : machine) : machine :=
  Machine (uart0 m) (serial_txbytes m) n
    (USART_BRR m) (USART_SR m) (USART_CR1 m) (USART_CR2 m) (USART_CR3 m)
    (usart_intr m) (usart_dr m).

Definition with_USART_CR1 (v : Z) (m : machine) : machine :=
  Machine (uart0 m) (serial_txbytes m) (serial_rxbytes m)
    (USART_BRR m) (USART_SR m) v (USART_CR2 m) (USART_CR3 m)
    (usart_intr m) (usart_dr m).

(** [USART_DR = c]: one more byte handed to the transmitter. *)
Definition write_USART_DR (c : byte) (m : machine) : machine :=
  Machine (uart0 m) (serial_txbytes m) (serial_rxbytes m)
    (USART_BRR m) (USART_SR m) (USART_CR1 m) (USART_CR2 m) (USART_CR3 m)
    (usart_intr m) (usart_dr m ++ [c]).

(** Clock and bit rate of the STM32 build (serial.c, lines 8-9); the macro
    [F_CPU] expands without parentheses, so [F_CPU / BAUD] is
    [24*1000*1000 / 9600], evaluated left to right. *)
Definition F_CPU_over_BAUD : Z := 24 * 1000 * 1000 / 9600.

(** ** A sample configuration

    The bit assignments of the STM32F100 USART (reference manual RM0041):
    RXNE is bit 5 and TXE bit 7 of [USART_SR]; in [USART_CR1], RE is bit 2,
    TE bit 3, RXNEIE bit 5, TXEIE bit 7 and UE bit 13. *)
Module Sample.

Definition RXNE : Z := 0x20.
Definition TXE : Z := 0x80.
Definition TXEIE : Z := 0x80.
Definition UE : Z := 0x2000.
Definition TE : Z := 0x08.
Definition RE : Z := 0x04.
Definition RXNEIE : Z := 0x20.

(** The machine as the C start-up code leaves it: every object zero. *)
Definition reset : machine :=
  Machine (Fifo (replicate 16 x00) (replicate 128 x00) 0 0 0 0)
    0 0 0 0 0 0 0 false [].

(** A machine whose receive buffer is full: [rxhead] is 2, [rxtail] is 3. *)
Definition rx_full_machine : machine :=
  Machine (Fifo (replicate 16 x31) (replicate 128 x00) 2 3 0 0)
    7 7 0 0 0 0 0 false [].

(** A machine whose transmit buffer is full: [txhead] is 127, [txtail]
    is 0. *)
Definition tx_full_machine : machine :=
  Machine (Fifo (replicate 16 x00) (replicate 128 x41) 0 0 127 0)
    0 0 0 0 TXEIE 0 0 false [].

(** A machine with one byte pending in the receive buffer, [0xFF]. *)
Definition rx_ff_machine : machine :=
  Machine (Fifo (replicate 16 xff) (replicate 128 x00) 1 0 0 0)
    0 1 0 0 0 0 0 false [].

End Sample.

Section Serial.

(** The register bit masks come from [armduino.h], which [serial.c] only
    includes: they are parameters of the development. *)
Variables USART_RXNE USART_TXE : Z.                     (* bits of USART_SR *)
Variables USART_TXEIE : Z.                              (* bit of USART_CR1 *)
Variables USART_UE USART_TE USART_RE USART_RXNEIE : Z.  (* bits of USART_CR1 *)

(** ** The interrupt handler (serial.c, lines 118-148) *)

(** The body of [if (status & USART_RXNE)]; [dr] is the value read from
    [USART_DR]. *)
Definition isr_receive (dr : Z) (m : machine) : machine :=
  let q := uart0 m in
  let c := uchar_of_int dr in
  let i := wrap32 (rxhead q + 1) in
  let i := if UART_RXBUF_SIZE <=? i then 0 else i in
  let m :=
    if negb (i =? rxtail q) then
      with_uart0
        (Fifo (array_set (rxbuf q) (rxhead q) c) (txbuf q)
              i (rxtail q) (txhead q) (txtail q)) m
    else m in
  with_serial_rxbytes (wrap32 (serial_rxbytes m + 1)) m.

(** The body of [if (status & USART_TXE)].  In [USART_CR1 &= ~USART_TXEIE]
    the complement is taken on 32 bits; the conjunction with the register
    keeps no bit above those of the register, so [Z.lnot] gives the same
    value. *)
Definition isr_transmit (m : machine) : machine :=
  let q := uart0 m in
  let i := txtail q in
  let m :=
    if negb (i =? txhead q) then
      let m := write_USART_DR (array_get (txbuf q) i) m in
      let i := wrap32 (i + 1) in
      let i := if UART_TXBUF_SIZE <=? i then 0 else i in
      with_uart0
        (Fifo (rxbuf q) (txbuf q) (rxhead q) (rxtail q) (txhead q) i) m
    else
      with_USART_CR1 (Z.land (USART_CR1 m) (Z.lnot USART_TXEIE)) m in
  with_serial_txbytes (wrap32 (serial_txbytes m + 1)) m.

(** [ISR(USART2)]: [status] is the value read from [USART_SR]. *)
Definition ISR_USART2 (status dr : Z) (m : machine) : machine :=
  let m := if negb (Z.land status USART_RXNE =? 0)
           then isr_receive dr m else m in
  let m := if negb (Z.land status USART_TXE =? 0)
           then isr_transmit m else m in
  m.

(** ** [uart_getch] (serial.c, lines 153-167) *)

Definition uart_getch (m : machine) : Z * machine :=
  let q := uart0 m in
  let i := rxtail q in
  let j := rxhead q in
  if negb (i =? j) then
    let c := array_get (rxbuf q) i in
    let i := wrap32 (i + 1) in
    let i := if UART_RXBUF_SIZE <=? i then 0 else i in
    (int_of_uchar c,
     with_uart0
       (Fifo (rxbuf q) (txbuf q) (rxhead q) i (txhead q) (txtail q)) m)
  else (-1, m).

(** ** [uart_putch] (serial.c, lines 173-187)

    The function returns a [char]: [0] and [-1] converted to it. *)

Definition uart_putch (c : byte) (m : machine) : byte * machine :=
  let q := uart0 m in
  let i := wrap32 (txhead q + 1) in
  let i := if UART_TXBUF_SIZE <=? i then 0 else i in
  let j := txtail q in
  if i =? j then (char_of_int (-1), m)
  else
    let m :=
      with_uart0
        (Fifo (rxbuf q) (array_set (txbuf q) (txhead q) c)
              (rxhead q) (rxtail q) i (txtail q)) m in
    let m := with_USART_CR1 (Z.lor (USART_CR1 m) USART_TXEIE) m in
    (char_of_int 0, m).

(** ** [setup_uart] (serial.c, lines 194-219) *)

Definition setup_uart (m : machine) : machine :=
  let q := uart0 m in
  Machine (Fifo (rxbuf q) (txbuf q) 0 0 0 0)
    0 0
    F_CPU_over_BAUD
    0
    (Z.lor (Z.lor (Z.lor USART_UE USART_TE) USART_RE) USART_RXNEIE)
    0
    0
    true
    (usart_dr m).

(** ** Running several operations in a row *)

(** Successive calls of [uart_putch], one per character, with the values
    they return. *)
Fixpoint putch_all (cs : list byte) (m : machine) : list byte * machine :=
  match cs with
  | [] => ([], m)
  | c :: cs' =>
      let (r, m1) := uart_putch c m in
      let (rs, m2) := putch_all cs' m1 in
      (r :: rs, m2)
  end.

(** [n] successive calls of [uart_getch], with the values they return. *)
Fixpoint getch_n (n : nat) (m : machine) : list Z * machine :=
  match n with
  | O => ([], m)
  | S n' =>
      let (r, m1) := uart_getch m in
      let (rs, m2) := getch_n n' m1 in
      (r :: rs, m2)
  end.

(** Successive invocations of the handler, one per event; an event is the
    pair of the values found in [USART_SR] and in [USART_DR]. *)
Fixpoint isr_all (evs : list (Z * Z)) (m : machine) : machine :=
  match evs with
  | [] => m
  | (status, dr) :: evs' => isr_all evs' (ISR_USART2 status dr m)
  end.

Definition rx_event (ev : Z * Z) : Prop := Z.land (fst ev) USART_RXNE <> 0.
Definition tx_event (ev : Z * Z) : Prop := Z.land (fst ev) USART_TXE <> 0.

(** ** Specification vocabulary *)

Definition rx_indices_valid (q : uart_fifo_type) : Prop :=
  0 <= rxhead q < UART_RXBUF_SIZE /\ 0 <= rxtail q < UART_RXBUF_SIZE.

Definition tx_indices_valid (q : uart_fifo_type) : Prop :=
  0 <= txhead q < UART_TXBUF_SIZE /\ 0 <= txtail q < UART_TXBUF_SIZE.

Definition indices_valid (q : uart_fifo_type) : Prop :=
  rx_indices_valid q /\ tx_indices_valid q.

Definition rx_empty (q : uart_fifo_type) : Prop := rxhead q = rxtail q.
Definition tx_empty (q : uart_fifo_type) : Prop := txhead q = txtail q.

Definition rx_full (q : uart_fifo_type) : Prop :=
  (rxhead q + 1) mod UART_RXBUF_SIZE = rxtail q.
Definition tx_full (q : uart_fifo_type) : Prop :=
  (txhead q + 1) mod UART_TXBUF_SIZE = txtail q.

(** Number of bytes held between [tail] and [head] in a ring of [cap]
    slots. *)
Definition ring_count (cap head tail : Z) : Z := (head - tail) mod cap.

(** The [n] bytes found in the ring from slot [i] on, oldest first. *)
Fixpoint ring_slice (a : list byte) (cap i : Z) (n : nat) : list byte :=
  match n with
  | O => []
  | S n' => array_get a i :: ring_slice a cap ((i + 1) mod cap) n'
  end.

(** The bytes waiting in each queue, oldest first. *)
Definition rx_pending (q : uart_fifo_type) : list byte :=
  ring_slice (rxbuf q) UART_RXBUF_SIZE (rxtail q)
    (Z.to_nat (ring_count UART_RXBUF_SIZE (rxhead q) (rxtail q))).

Definition tx_pending (q : uart_fifo_type) : list byte :=
  ring_slice (txbuf q) UART_TXBUF_SIZE (txtail q)
    (Z.to_nat (ring_count UART_TXBUF_SIZE (txhead q) (txtail q))).

(** The transmitter-ready interrupt enable, read off [USART_CR1]. *)
Definition txeie_set (m : machine) : Prop :=
  Z.land (USART_CR1 m) USART_TXEIE = USART_TXEIE.
Definition txeie_clear (m : machine) : Prop :=
  Z.land (USART_CR1 m) USART_TXEIE = 0.

(** ** Foreground calls and handler invocations, interleaved

    One step of the program as its environment sees it: a call of
    [uart_putch], a call of [uart_getch], or an invocation of the handler
    with the values found in [USART_SR] and [USART_DR]. *)

Inductive op : Type :=
  | Putch (c : byte)
  | Getch
  | Interrupt (status dr : Z).

Definition step (o : op) (m : machine) : machine :=
  match o with
  | Putch c => snd (uart_putch c m)
  | Getch => snd (uart_getch m)
  | Interrupt status dr => ISR_USART2 status dr m
  end.

Fixpoint run (ops : list op) (m : machine) : machine :=
  match ops with
  | [] => m
  | o :: ops' => run ops' (step o m)
  end.

(** What a step shows, gathered along a run. *)
Fixpoint collect {A : Type} (f : op -> machine -> list A)
    (ops : list op) (m : machine) : list A :=
  match ops with
  | [] => []
  | o :: ops' => f o m ++ collect f ops' (step o m)
  end.

(** The character of a [uart_putch] that returned [0]. *)
Definition accepted (o : op) (m : machine) : list byte :=
  match o with
  | Putch c =>
      if Byte.eqb (fst (uart_putch c m)) (char_of_int 0) then [c] else []
  | _ => []
  end.

(** The value of a [uart_getch] that returned other than [-1]. *)
Definition returned (o : op) (m : machine) : list Z :=
  match o with
  | Getch => let r := fst (uart_getch m) in if r =? -1 then [] else [r]
  | _ => []
  end.

(** The byte of a receive event that found room in the receive buffer. *)
Definition stored (o : op) (m : machine) : list byte :=
  match o with
  | Interrupt status dr =>
      if negb (Z.land status USART_RXNE =? 0) then
        if (rxhead (uart0 m) + 1) mod UART_RXBUF_SIZE =? rxtail (uart0 m)
        then [] else [uchar_of_int dr]
      else []
  | _ => []
  end.

Definition rx_eventb (ev : Z * Z) : bool :=
  negb (Z.land (fst ev) USART_RXNE =? 0).
Definition tx_eventb (ev : Z * Z) : bool :=
  negb (Z.land (fst ev) USART_TXE =? 0).

(** Indices within bounds and buffers of their declared sizes. *)
Definition well_formed (m : machine) : Prop :=
  indices_valid (uart0 m) /\
  length (rxbuf (uart0 m)) = Z.to_nat UART_RXBUF_SIZE /\
  length (txbuf (uart0 m)) = Z.to_nat UART_TXBUF_SIZE.

(** ** Arithmetic of the indices *)

Ltac Zify.zify_post_hook ::= Z.div_mod_to_equations.

Ltac unfold_sizes :=
  unfold UART_RXBUF_SIZE, UART_TXBUF_SIZE, wrap32 in *.

(** The handler and the foreground both advance an index by [i + 1]
    followed by [if (i >= SIZE) i = 0]; on a valid index this is the
    successor modulo the size. *)
Lemma rx_advance (i : Z) :
  0 <= i < UART_RXBUF_SIZE ->
  (if UART_RXBUF_SIZE <=? wrap32 (i + 1) then 0 else wrap32 (i + 1))
  = (i + 1) mod UART_RXBUF_SIZE.
Proof.
  unfold_sizes. intros Hi.
  destruct (Z.leb_spec 16 ((i + 1) mod 2 ^ 32)); lia.
Qed.

Lemma tx_advance (i : Z) :
  0 <= i < UART_TXBUF_SIZE ->
  (if UART_TXBUF_SIZE <=? wrap32 (i + 1) then 0 else wrap32 (i + 1))
  = (i + 1) mod UART_TXBUF_SIZE.
Proof.
  unfold_sizes. intros Hi.
  destruct (Z.leb_spec 128 ((i + 1) mod 2 ^ 32)); lia.
Qed.

(** Whatever the index, the advanced index is a valid one. *)
Lemma rx_advance_valid (i : Z) :
  0 <= (if UART_RXBUF_SIZE <=? wrap32 (i + 1) then 0 else wrap32 (i + 1))
    < UART_RXBUF_SIZE.
Proof.
  unfold_sizes.
  destruct (Z.leb_spec 16 ((i + 1) mod 2 ^ 32)); lia.
Qed.

Lemma tx_advance_valid (i : Z) :
  0 <= (if UART_TXBUF_SIZE <=? wrap32 (i + 1) then 0 else wrap32 (i + 1))
    < UART_TXBUF_SIZE.
Proof.
  unfold_sizes.
  destruct (Z.leb_spec 128 ((i + 1) mod 2 ^ 32)); lia.
Qed.

(** ** Bit masks *)

(** After [reg |= mask] every bit of the mask is set. *)
Lemma land_lor_mask (reg mask : Z) : Z.land (Z.lor reg mask) mask = mask.
Proof.
  apply Z.bits_inj'. intros n Hn.
  rewrite Z.land_spec, Z.lor_spec.
  destruct (Z.testbit reg n), (Z.testbit mask n); reflexivity.
Qed.


(** After [reg &= ~mask] every bit of the mask is clear. *)
Lemma land_lnot_mask (reg mask : Z) :
  Z.land (Z.land reg (Z.lnot mask)) mask = 0.
Proof.
  apply Z.bits_inj'. intros n Hn.
  rewrite !Z.land_spec, Z.lnot_spec, Z.bits_0 by exact Hn.
  destruct (Z.testbit reg n), (Z.testbit mask n); reflexivity.
Qed.

(** ** Bytes *)

Lemma int_of_uchar_range (b : byte) : 0 <= int_of_uchar b <= 255.
Proof.
  unfold int_of_uchar. assert (H := Byte.to_N_bounded b). lia.
Qed.

Lemma int_of_uchar_of_int (z : Z) : int_of_uchar (uchar_of_int z) = z mod 256.
Proof.
  unfold int_of_uchar, uchar_of_int.
  assert (Hr : 0 <= z mod 256 < 256) by (apply Z.mod_pos_bound; lia).
  destruct (Byte.of_N (Z.to_N (z mod 256))) as [b |] eqn:E.
  - apply Byte.to_of_N in E. rewrite E. apply Z2N.id. lia.
  - apply Byte.of_N_None_iff in E. lia.
Qed.

(** The two statuses of [uart_putch] as eight-bit patterns. *)
Lemma char_of_int_statuses :
  char_of_int 0 = x00 /\ char_of_int (-1) = xff.
Proof. split; reflexivity. Qed.

Lemma uchar_of_int_of_uchar (b : byte) : uchar_of_int (int_of_uchar b) = b.
Proof.
  unfold uchar_of_int, int_of_uchar.
  assert (H := Byte.to_N_bounded b).
  rewrite Z.mod_small by lia.
  rewrite N2Z.id, Byte.of_to_N. reflexivity.
Qed.

(** ** Arrays *)

Lemma array_get_set_eq (a : list byte) (i : Z) (c : byte) :
  0 <= i < Z.of_nat (length a) ->
  array_get (array_set a i c) i = c.
Proof.
  intros Hi. unfold array_get, array_set.
  rewrite list_lookup_insert_eq; [reflexivity | lia].
Qed.

Lemma array_get_set_ne (a : list byte) (i j : Z) (c : byte) :
  0 <= i -> 0 <= j -> i <> j ->
  array_get (array_set a i c) j = array_get a j.
Proof.
  intros Hi Hj Hne. unfold array_get, array_set.
  rewrite list_lookup_insert_ne; [reflexivity | lia].
Qed.

Lemma array_set_length (a : list byte) (i : Z) (c : byte) :
  length (array_set a i c) = length a.
Proof. unfold array_set. apply length_insert. Qed.

(** ** Rings *)

Section Ring.

Variable cap : Z.
Hypothesis cap_pos : 0 < cap.

Lemma ring_succ_range (i : Z) : 0 <= (i + 1) mod cap < cap.
Proof. apply Z.mod_pos_bound. exact cap_pos. Qed.

Lemma ring_add_succ (t : Z) (n : Z) :
  ((t + 1) mod cap + n) mod cap = (t + (n + 1)) mod cap.
Proof.
  rewrite Zplus_mod_idemp_l. f_equal. lia.
Qed.

Lemma ring_add_ne (t n : Z) :
  0 <= t < cap -> 0 < n < cap -> (t + n) mod cap <> t.
Proof.
  intros Ht Hn Heq.
  destruct (Z_lt_le_dec (t + n) cap) as [Hlt | Hge].
  - rewrite Z.mod_small in Heq; lia.
  - assert (H : (t + n) mod cap = t + n - cap).
    { symmetry. apply (Z.mod_unique (t + n) cap 1); lia. }
    lia.
Qed.

(** Writing the slot just after the last of [n] pending bytes appends to
    the pending bytes. *)
Lemma ring_slice_push (a : list byte) (c : byte) (n : nat) :
  forall t : Z,
    Z.of_nat (length a) = cap ->
    0 <= t < cap ->
    Z.of_nat n < cap ->
    ring_slice (array_set a ((t + Z.of_nat n) mod cap) c) cap t (S n)
    = ring_slice a cap t n ++ [c].
Proof.
  induction n as [| n IH]; intros t Hlen Ht Hn.
  - simpl. rewrite Z.add_0_r, Z.mod_small by lia.
    rewrite array_get_set_eq by lia. reflexivity.
  - change (ring_slice (array_set a ((t + Z.of_nat (S n)) mod cap) c) cap t
              (S (S n)))
      with (array_get (array_set a ((t + Z.of_nat (S n)) mod cap) c) t
            :: ring_slice (array_set a ((t + Z.of_nat (S n)) mod cap) c) cap
                 ((t + 1) mod cap) (S n)).
    rewrite array_get_set_ne.
    + replace ((t + Z.of_nat (S n)) mod cap)
        with (((t + 1) mod cap + Z.of_nat n) mod cap)
        by (rewrite ring_add_succ; f_equal; lia).
      rewrite IH; [reflexivity | assumption | apply ring_succ_range | lia].
    + apply Z.mod_pos_bound; lia.
    + lia.
    + apply ring_add_ne; lia.
Qed.

(** Reduction modulo [cap] of a number at most one lap away. *)
Lemma ring_mod_near (x : Z) :
  - cap <= x < 2 * cap ->
  x mod cap = if x <? 0 then x + cap else if x <? cap then x else x - cap.
Proof.
  intros Hx.
  destruct (Z.ltb_spec x 0); [| destruct (Z.ltb_spec x cap)]; symmetry.
  - apply (Z.mod_unique x cap (-1)); lia.
  - apply (Z.mod_unique x cap 0); lia.
  - apply (Z.mod_unique x cap 1); lia.
Qed.

Ltac ring_cases :=
  repeat match goal with
  | |- context [if ?x <? ?y then _ else _] => destruct (Z.ltb_spec x y)
  | H : context [if ?x <? ?y then _ else _] |- _ => destruct (Z.ltb_spec x y)
  end; try lia.

Lemma ring_count_range (h t : Z) : 0 <= ring_count cap h t < cap.
Proof. apply Z.mod_pos_bound. exact cap_pos. Qed.

Lemma ring_count_empty (h : Z) : ring_count cap h h = 0.
Proof. unfold ring_count. rewrite Z.sub_diag. apply Z.mod_0_l. lia. Qed.

Lemma ring_count_zero (h t : Z) :
  0 <= h < cap -> 0 <= t < cap -> ring_count cap h t = 0 -> h = t.
Proof.
  unfold ring_count. intros Hh Ht.
  rewrite (ring_mod_near (h - t)) by lia. intros H0. ring_cases.
Qed.

(** The head is the tail plus the count, around the ring. *)
Lemma ring_head_of_count (h t : Z) :
  0 <= h < cap -> 0 <= t < cap -> (t + ring_count cap h t) mod cap = h.
Proof.
  intros Hh Ht. unfold ring_count.
  rewrite (ring_mod_near (h - t)) by lia.
  destruct (Z.ltb_spec (h - t) 0); [| destruct (Z.ltb_spec (h - t) cap)];
    rewrite ring_mod_near by lia; ring_cases.
Qed.

(** The ring is full exactly when it holds [cap - 1] bytes. *)
Lemma ring_full_count (h t : Z) :
  0 <= h < cap -> 0 <= t < cap ->
  (h + 1) mod cap = t <-> ring_count cap h t = cap - 1.
Proof.
  intros Hh Ht. unfold ring_count.
  rewrite (ring_mod_near (h + 1)), (ring_mod_near (h - t)) by lia.
  split; intros H; ring_cases.
Qed.

(** Advancing the head adds one to the count unless the ring is full. *)
Lemma ring_count_push (h t : Z) :
  0 <= h < cap -> 0 <= t < cap ->
  (h + 1) mod cap <> t ->
  ring_count cap ((h + 1) mod cap) t = ring_count cap h t + 1.
Proof.
  intros Hh Ht. unfold ring_count.
  rewrite (ring_mod_near (h + 1)), (ring_mod_near (h - t)) by lia.
  intros Hne.
  destruct (Z.ltb_spec (h + 1) 0); [lia |].
  destruct (Z.ltb_spec (h + 1) cap);
    rewrite ring_mod_near by lia; ring_cases.
Qed.

(** Advancing the tail of a ring that is not empty removes one byte. *)
Lemma ring_count_pop (h t : Z) :
  0 <= h < cap -> 0 <= t < cap -> h <> t ->
  ring_count cap h t = ring_count cap h ((t + 1) mod cap) + 1.
Proof.
  intros Hh Ht Hne. unfold ring_count.
  rewrite (ring_mod_near (t + 1)), (ring_mod_near (h - t)) by lia.
  destruct (Z.ltb_spec (t + 1) 0); [lia |].
  destruct (Z.ltb_spec (t + 1) cap);
    rewrite ring_mod_near by lia; ring_cases.
Qed.

(** The pending bytes of a ring after its producer stored [c] at the head
    and advanced the head. *)
Lemma ring_pending_push (a : list byte) (c : byte) (h t : Z) :
  Z.of_nat (length a) = cap ->
  0 <= h < cap -> 0 <= t < cap ->
  (h + 1) mod cap <> t ->
  ring_slice (array_set a h c) cap t
    (Z.to_nat (ring_count cap ((h + 1) mod cap) t))
  = ring_slice a cap t (Z.to_nat (ring_count cap h t)) ++ [c].
Proof.
  intros Hlen Hh Ht Hne.
  rewrite ring_count_push by assumption.
  assert (Hr := ring_count_range h t).
  rewrite Z2Nat.inj_add by lia.
  rewrite Nat.add_1_r.
  rewrite <- (ring_head_of_count h t Hh Ht) at 1.
  rewrite <- (Z2Nat.id (ring_count cap h t)) at 1 by lia.
  apply ring_slice_push; [assumption | assumption | lia].
Qed.

(** The pending bytes of a ring that is not empty: the byte at the tail,
    then what is pending once the consumer advanced the tail. *)
Lemma ring_pending_pop (a : list byte) (h t : Z) :
  0 <= h < cap -> 0 <= t < cap -> h <> t ->
  ring_slice a cap t (Z.to_nat (ring_count cap h t))
  = array_get a t
    :: ring_slice a cap ((t + 1) mod cap)
         (Z.to_nat (ring_count cap h ((t + 1) mod cap))).
Proof.
  intros Hh Ht Hne.
  rewrite (ring_count_pop h t) by assumption.
  assert (Hr := ring_count_range h ((t + 1) mod cap)).
  rewrite Z2Nat.inj_add by lia.
  rewrite Nat.add_1_r. reflexivity.
Qed.

End Ring.

Lemma rx_size_pos : 0 < UART_RXBUF_SIZE.
Proof. reflexivity. Qed.

Lemma tx_size_pos : 0 < UART_TXBUF_SIZE.
Proof. reflexivity. Qed.

(** ** The operations on valid indices *)

Lemma uart_putch_eq (c : byte) (m : machine) :
  0 <= txhead (uart0 m) < UART_TXBUF_SIZE ->
  uart_putch c m =
  let q := uart0 m in
  let i := (txhead q + 1) mod UART_TXBUF_SIZE in
  if i =? txtail q then (char_of_int (-1), m)
  else (char_of_int 0,
        with_USART_CR1 (Z.lor (USART_CR1 m) USART_TXEIE)
          (with_uart0
             (Fifo (rxbuf q) (array_set (txbuf q) (txhead q) c)
                   (rxhead q) (rxtail q) i (txtail q)) m)).
Proof.
  intros Hh. unfold uart_putch. cbv zeta.
  rewrite (tx_advance _ Hh). reflexivity.
Qed.

Lemma uart_getch_eq (m : machine) :
  0 <= rxtail (uart0 m) < UART_RXBUF_SIZE ->
  uart_getch m =
  let q := uart0 m in
  if rxtail q =? rxhead q then (-1, m)
  else (int_of_uchar (array_get (rxbuf q) (rxtail q)),
        with_uart0
          (Fifo (rxbuf q) (txbuf q) (rxhead q)
                ((rxtail q + 1) mod UART_RXBUF_SIZE) (txhead q) (txtail q)) m).
Proof.
  intros Ht. unfold uart_getch. cbv zeta.
  rewrite (rx_advance _ Ht).
  destruct (rxtail (uart0 m) =? rxhead (uart0 m)); reflexivity.
Qed.

Lemma isr_receive_eq (dr : Z) (m : machine) :
  0 <= rxhead (uart0 m) < UART_RXBUF_SIZE ->
  isr_receive dr m =
  let q := uart0 m in
  let i := (rxhead q + 1) mod UART_RXBUF_SIZE in
  with_serial_rxbytes (wrap32 (serial_rxbytes m + 1))
    (if i =? rxtail q then m
     else with_uart0
            (Fifo (array_set (rxbuf q) (rxhead q) (uchar_of_int dr)) (txbuf q)
                  i (rxtail q) (txhead q) (txtail q)) m).
Proof.
  intros Hh. unfold isr_receive. cbv zeta.
  rewrite (rx_advance _ Hh).
  destruct ((rxhead (uart0 m) + 1) mod UART_RXBUF_SIZE =? rxtail (uart0 m));
    reflexivity.
Qed.

Lemma isr_transmit_eq (m : machine) :
  0 <= txtail (uart0 m) < UART_TXBUF_SIZE ->
  isr_transmit m =
  let q := uart0 m in
  with_serial_txbytes (wrap32 (serial_txbytes m + 1))
    (if txtail q =? txhead q
     then with_USART_CR1 (Z.land (USART_CR1 m) (Z.lnot USART_TXEIE)) m
     else with_uart0
            (Fifo (rxbuf q) (txbuf q) (rxhead q) (rxtail q) (txhead q)
                  ((txtail q + 1) mod UART_TXBUF_SIZE))
            (write_USART_DR (array_get (txbuf q) (txtail q)) m)).
Proof.
  intros Ht. unfold isr_transmit. cbv zeta.
  rewrite (tx_advance _ Ht).
  destruct (txtail (uart0 m) =? txhead (uart0 m)); reflexivity.
Qed.

(** A refused character leaves the machine as it was. *)
Lemma uart_putch_when_full (c : byte) (m : machine) :
  0 <= txhead (uart0 m) < UART_TXBUF_SIZE ->
  tx_full (uart0 m) ->
  uart_putch c m = (char_of_int (-1), m).
Proof.
  intros Hh Hfull. rewrite uart_putch_eq by assumption. cbv zeta.
  unfold tx_full in Hfull. rewrite Hfull, Z.eqb_refl. reflexivity.
Qed.

(** An accepted character joins the pending ones, last. *)
Lemma uart_putch_when_room (c : byte) (m : machine) :
  tx_indices_valid (uart0 m) ->
  ~ tx_full (uart0 m) ->
  exists m',
    uart_putch c m = (char_of_int 0, m') /\
    tx_indices_valid (uart0 m') /\
    txtail (uart0 m') = txtail (uart0 m) /\
    ring_count UART_TXBUF_SIZE (txhead (uart0 m')) (txtail (uart0 m'))
    = ring_count UART_TXBUF_SIZE (txhead (uart0 m)) (txtail (uart0 m)) + 1 /\
    length (txbuf (uart0 m')) = length (txbuf (uart0 m)) /\
    usart_dr m' = usart_dr m /\
    txeie_set m' /\
    (length (txbuf (uart0 m)) = Z.to_nat UART_TXBUF_SIZE ->
     tx_pending (uart0 m') = tx_pending (uart0 m) ++ [c]).
Proof.
  intros [Hh Ht] Hroom. unfold tx_full in Hroom.
  rewrite uart_putch_eq by assumption. cbv zeta.
  destruct (Z.eqb_spec ((txhead (uart0 m) + 1) mod UART_TXBUF_SIZE)
              (txtail (uart0 m))) as [Heq | Hne]; [contradiction |].
  eexists. split; [reflexivity |]. simpl.
  repeat split.
  - apply Z.mod_pos_bound. reflexivity.
  - apply Z.mod_pos_bound. reflexivity.
  - apply Ht.
  - apply Ht.
  - apply (ring_count_push _ tx_size_pos); assumption.
  - apply array_set_length.
  - unfold txeie_set. simpl.
    apply land_lor_mask.
  - intros Hlen. unfold tx_pending. simpl.
    apply (ring_pending_push _ tx_size_pos); try assumption.
    rewrite Hlen. reflexivity.
Qed.

Lemma tx_full_dec (q : uart_fifo_type) : {tx_full q} + {~ tx_full q}.
Proof. unfold tx_full. apply Z.eq_dec. Qed.

(** Results of a run of [uart_putch] with no handler in between: the
    free slots are taken one by one, and every later call is refused. *)
Lemma putch_all_results (cs : list byte) :
  forall m : machine,
    tx_indices_valid (uart0 m) ->
    let k := ring_count UART_TXBUF_SIZE (txhead (uart0 m)) (txtail (uart0 m)) in
    fst (putch_all cs m)
    = replicate (Nat.min (length cs) (Z.to_nat (UART_TXBUF_SIZE - 1 - k)))
        (char_of_int 0)
      ++ replicate (length cs - Z.to_nat (UART_TXBUF_SIZE - 1 - k))
           (char_of_int (-1)).
Proof.
  induction cs as [| c cs IH]; intros m Hv k; [reflexivity |].
  assert (Hk := ring_count_range _ tx_size_pos
                  (txhead (uart0 m)) (txtail (uart0 m))).
  fold k in Hk.
  destruct (tx_full_dec (uart0 m)) as [Hfull | Hroom].
  - assert (Hk' : k = UART_TXBUF_SIZE - 1).
    { apply (ring_full_count _ tx_size_pos); [apply Hv | apply Hv | exact Hfull]. }
    simpl putch_all.
    rewrite uart_putch_when_full by (apply Hv || assumption).
    specialize (IH m Hv). cbv zeta in IH. fold k in IH.
    destruct (putch_all cs m) as [rs m2]. simpl in IH |- *.
    rewrite IH, Hk'.
    replace (Z.to_nat (UART_TXBUF_SIZE - 1 - (UART_TXBUF_SIZE - 1))) with 0%nat
      by lia.
    rewrite Nat.min_0_r, Nat.sub_0_r. reflexivity.
  - assert (Hk' : k <> UART_TXBUF_SIZE - 1).
    { intros E. apply Hroom.
      apply (ring_full_count _ tx_size_pos); [apply Hv | apply Hv | exact E]. }
    destruct (uart_putch_when_room c m Hv Hroom)
      as (m' & Hput & Hv' & _ & Hcnt & _).
    simpl putch_all. rewrite Hput.
    specialize (IH m' Hv'). cbv zeta in IH. rewrite Hcnt in IH. fold k in IH.
    destruct (putch_all cs m') as [rs m2]. simpl in IH |- *.
    rewrite IH.
    replace (Z.to_nat (UART_TXBUF_SIZE - 1 - k))
      with (S (Z.to_nat (UART_TXBUF_SIZE - 1 - (k + 1)))) by lia.
    reflexivity.
Qed.

(** ** Each handler path leaves the other queue alone *)

Lemma isr_receive_frame (dr : Z) (m : machine) :
  let m' := isr_receive dr m in
  txbuf (uart0 m') = txbuf (uart0 m) /\
  txhead (uart0 m') = txhead (uart0 m) /\
  txtail (uart0 m') = txtail (uart0 m) /\
  usart_dr m' = usart_dr m /\
  USART_CR1 m' = USART_CR1 m /\
  serial_txbytes m' = serial_txbytes m /\
  rxtail (uart0 m') = rxtail (uart0 m) /\
  serial_rxbytes m' = wrap32 (serial_rxbytes m + 1).
Proof.
  unfold isr_receive. cbv zeta.
  destruct (negb _); simpl; repeat split; reflexivity.
Qed.

Lemma isr_transmit_frame (m : machine) :
  let m' := isr_transmit m in
  rxbuf (uart0 m') = rxbuf (uart0 m) /\
  rxhead (uart0 m') = rxhead (uart0 m) /\
  rxtail (uart0 m') = rxtail (uart0 m) /\
  serial_rxbytes m' = serial_rxbytes m /\
  txbuf (uart0 m') = txbuf (uart0 m) /\
  txhead (uart0 m') = txhead (uart0 m) /\
  serial_txbytes m' = wrap32 (serial_txbytes m + 1).
Proof.
  unfold isr_transmit. cbv zeta.
  destruct (negb _); simpl; repeat split; reflexivity.
Qed.

Lemma tx_pending_ext (q q' : uart_fifo_type) :
  txbuf q' = txbuf q -> txhead q' = txhead q -> txtail q' = txtail q ->
  tx_pending q' = tx_pending q.
Proof. unfold tx_pending. intros -> -> ->. reflexivity. Qed.

Lemma rx_pending_ext (q q' : uart_fifo_type) :
  rxbuf q' = rxbuf q -> rxhead q' = rxhead q -> rxtail q' = rxtail q ->
  rx_pending q' = rx_pending q.
Proof. unfold rx_pending. intros -> -> ->. reflexivity. Qed.

Lemma tx_pending_empty (q : uart_fifo_type) :
  tx_empty q -> tx_pending q = [].
Proof.
  unfold tx_empty, tx_pending. intros ->.
  rewrite (ring_count_empty _ tx_size_pos). reflexivity.
Qed.

Lemma rx_pending_empty (q : uart_fifo_type) :
  rx_empty q -> rx_pending q = [].
Proof.
  unfold rx_empty, rx_pending. intros ->.
  rewrite (ring_count_empty _ rx_size_pos). reflexivity.
Qed.

Lemma tx_pending_length (q : uart_fifo_type) :
  Z.of_nat (length (tx_pending q))
  = ring_count UART_TXBUF_SIZE (txhead q) (txtail q).
Proof.
  unfold tx_pending.
  assert (Hr := ring_count_range _ tx_size_pos (txhead q) (txtail q)).
  generalize dependent (ring_count UART_TXBUF_SIZE (txhead q) (txtail q)).
  intros k Hk. rewrite <- (Z2Nat.id k) at 2 by lia. f_equal.
  generalize (txtail q). induction (Z.to_nat k) as [| n IH]; intros t.
  - reflexivity.
  - simpl. f_equal. apply IH.
Qed.

Lemma rx_pending_length (q : uart_fifo_type) :
  Z.of_nat (length (rx_pending q))
  = ring_count UART_RXBUF_SIZE (rxhead q) (rxtail q).
Proof.
  unfold rx_pending.
  assert (Hr := ring_count_range _ rx_size_pos (rxhead q) (rxtail q)).
  generalize dependent (ring_count UART_RXBUF_SIZE (rxhead q) (rxtail q)).
  intros k Hk. rewrite <- (Z2Nat.id k) at 2 by lia. f_equal.
  generalize (rxtail q). induction (Z.to_nat k) as [| n IH]; intros t.
  - reflexivity.
  - simpl. f_equal. apply IH.
Qed.

(** ** The transmit path, one invocation *)

Lemma isr_transmit_step (m : machine) :
  tx_indices_valid (uart0 m) ->
  let m' := isr_transmit m in
  tx_indices_valid (uart0 m') /\
  usart_dr m' = usart_dr m ++ take 1 (tx_pending (uart0 m)) /\
  tx_pending (uart0 m') = drop 1 (tx_pending (uart0 m)) /\
  (tx_empty (uart0 m) -> uart0 m' = uart0 m /\ txeie_clear m') /\
  (~ tx_empty (uart0 m) -> USART_CR1 m' = USART_CR1 m).
Proof.
  intros [Hh Ht]. cbv zeta.
  rewrite isr_transmit_eq by assumption. cbv zeta.
  destruct (Z.eqb_spec (txtail (uart0 m)) (txhead (uart0 m))) as [Heq | Hne].
  - simpl. rewrite (tx_pending_empty (uart0 m)) by (symmetry; exact Heq).
    simpl. rewrite app_nil_r.
    split; [split; assumption |].
    split; [reflexivity |].
    split; [reflexivity |].
    split.
    + intros _. split; [reflexivity |].
      unfold txeie_clear. simpl. apply land_lnot_mask.
    + unfold tx_empty. intros Hn. congruence.
  - assert (Hp : tx_pending (uart0 m)
                 = array_get (txbuf (uart0 m)) (txtail (uart0 m))
                   :: tx_pending
                        (Fifo (rxbuf (uart0 m)) (txbuf (uart0 m))
                              (rxhead (uart0 m)) (rxtail (uart0 m))
                              (txhead (uart0 m))
                              ((txtail (uart0 m) + 1) mod UART_TXBUF_SIZE))).
    { unfold tx_pending. simpl.
      apply (ring_pending_pop _ tx_size_pos); assumption || congruence. }
    rewrite Hp. simpl. rewrite drop_0.
    split; [split; [assumption | apply Z.mod_pos_bound; reflexivity] |].
    split; [reflexivity |].
    split; [reflexivity |].
    split.
    + unfold tx_empty. intros He. congruence.
    + intros _. reflexivity.
Qed.

(** ** The receive path, one invocation *)

Lemma isr_receive_step (dr : Z) (m : machine) :
  rx_indices_valid (uart0 m) ->
  length (rxbuf (uart0 m)) = Z.to_nat UART_RXBUF_SIZE ->
  let m' := isr_receive dr m in
  rx_indices_valid (uart0 m') /\
  length (rxbuf (uart0 m')) = Z.to_nat UART_RXBUF_SIZE /\
  (rx_full (uart0 m) -> uart0 m' = uart0 m) /\
  (~ rx_full (uart0 m) ->
   rx_pending (uart0 m') = rx_pending (uart0 m) ++ [uchar_of_int dr]).
Proof.
  intros [Hh Ht] Hlen. cbv zeta.
  rewrite isr_receive_eq by assumption. cbv zeta.
  unfold rx_full.
  destruct (Z.eqb_spec ((rxhead (uart0 m) + 1) mod UART_RXBUF_SIZE)
              (rxtail (uart0 m))) as [Heq | Hne].
  - simpl.
    split; [split; assumption |].
    split; [assumption |].
    split; [reflexivity |].
    intros Hn. contradiction.
  - simpl. rewrite array_set_length.
    split; [split; [apply Z.mod_pos_bound; reflexivity | assumption] |].
    split; [assumption |].
    split; [intros He; contradiction |].
    intros _. unfold rx_pending. simpl.
    apply (ring_pending_push _ rx_size_pos); try assumption.
    rewrite Hlen. reflexivity.
Qed.

(** ** [uart_getch], one call *)

Lemma uart_getch_step (m : machine) :
  rx_indices_valid (uart0 m) ->
  let (r, m') := uart_getch m in
  rx_indices_valid (uart0 m') /\
  match rx_pending (uart0 m) with
  | [] => r = -1 /\ m' = m
  | b :: bs => r = int_of_uchar b /\ rx_pending (uart0 m') = bs
  end.
Proof.
  intros [Hh Ht]. rewrite uart_getch_eq by assumption. cbv zeta.
  destruct (Z.eqb_spec (rxtail (uart0 m)) (rxhead (uart0 m))) as [Heq | Hne].
  - rewrite (rx_pending_empty (uart0 m)) by (symmetry; exact Heq).
    split; [split; assumption |]. split; reflexivity.
  - assert (Hp : rx_pending (uart0 m)
                 = array_get (rxbuf (uart0 m)) (rxtail (uart0 m))
                   :: rx_pending
                        (Fifo (rxbuf (uart0 m)) (txbuf (uart0 m))
                              (rxhead (uart0 m))
                              ((rxtail (uart0 m) + 1) mod UART_RXBUF_SIZE)
                              (txhead (uart0 m)) (txtail (uart0 m)))).
    { unfold rx_pending. simpl.
      apply (ring_pending_pop _ rx_size_pos); assumption || congruence. }
    rewrite Hp. simpl.
    split; [split; [assumption | apply Z.mod_pos_bound; reflexivity] |].
    split; reflexivity.
Qed.

(** ** The handler on each queue *)

Lemma ISR_tx_step (status dr : Z) (m : machine) :
  Z.land status USART_TXE <> 0 ->
  tx_indices_valid (uart0 m) ->
  let m' := ISR_USART2 status dr m in
  tx_indices_valid (uart0 m') /\
  usart_dr m' = usart_dr m ++ take 1 (tx_pending (uart0 m)) /\
  tx_pending (uart0 m') = drop 1 (tx_pending (uart0 m)).
Proof.
  intros Htx Hv. unfold ISR_USART2. cbv zeta.
  destruct (Z.eqb_spec (Z.land status USART_TXE) 0) as [E | _];
    [contradiction |].
  cbn [negb].
  set (m0 := if negb (Z.land status USART_RXNE =? 0)
             then isr_receive dr m else m).
  assert (Hf : txbuf (uart0 m0) = txbuf (uart0 m) /\
               txhead (uart0 m0) = txhead (uart0 m) /\
               txtail (uart0 m0) = txtail (uart0 m) /\
               usart_dr m0 = usart_dr m).
  { subst m0. destruct (negb _).
    - destruct (isr_receive_frame dr m) as (H1 & H2 & H3 & H4 & _).
      repeat split; assumption.
    - repeat split; reflexivity. }
  destruct Hf as (Hb & Hh & Ht & Hd).
  assert (Hv0 : tx_indices_valid (uart0 m0)).
  { unfold tx_indices_valid. rewrite Hh, Ht. exact Hv. }
  destruct (isr_transmit_step m0 Hv0) as (Hv' & Hdr & Hp & _).
  rewrite (tx_pending_ext (uart0 m) (uart0 m0) Hb Hh Ht) in Hdr, Hp.
  rewrite Hd in Hdr.
  split; [exact Hv' |]. split; assumption.
Qed.

Lemma ISR_rx_step (status dr : Z) (m : machine) :
  Z.land status USART_RXNE <> 0 ->
  rx_indices_valid (uart0 m) ->
  length (rxbuf (uart0 m)) = Z.to_nat UART_RXBUF_SIZE ->
  let m' := ISR_USART2 status dr m in
  rx_indices_valid (uart0 m') /\
  length (rxbuf (uart0 m')) = Z.to_nat UART_RXBUF_SIZE /\
  (~ rx_full (uart0 m) ->
   rx_pending (uart0 m') = rx_pending (uart0 m) ++ [uchar_of_int dr]).
Proof.
  intros Hrx Hv Hlen. unfold ISR_USART2. cbv zeta.
  destruct (Z.eqb_spec (Z.land status USART_RXNE) 0) as [E | _];
    [contradiction |].
  cbn [negb].
  destruct (isr_receive_step dr m Hv Hlen) as (Hv1 & Hlen1 & _ & Hp1).
  set (m1 := isr_receive dr m) in *.
  destruct (negb (Z.land status USART_TXE =? 0)).
  - destruct (isr_transmit_frame m1) as (Hb & Hh & Ht & _).
    split; [unfold rx_indices_valid; rewrite Hh, Ht; exact Hv1 |].
    split; [rewrite Hb; exact Hlen1 |].
    intros Hroom.
    rewrite (rx_pending_ext (uart0 m1) _ Hb Hh Ht). apply Hp1, Hroom.
  - split; [exact Hv1 |]. split; [exact Hlen1 | exact Hp1].
Qed.

(** ** Runs *)

Lemma take_succ_split (bs : list byte) (n : nat) :
  take (S n) bs = take 1 bs ++ take n (drop 1 bs).
Proof. destruct bs; [destruct n |]; reflexivity. Qed.

(** Transmit-ready invocations send the pending bytes, oldest first. *)
Lemma isr_all_drain (evs : list (Z * Z)) :
  forall m : machine,
    Forall tx_event evs ->
    tx_indices_valid (uart0 m) ->
    tx_indices_valid (uart0 (isr_all evs m)) /\
    usart_dr (isr_all evs m)
    = usart_dr m ++ take (length evs) (tx_pending (uart0 m)) /\
    tx_pending (uart0 (isr_all evs m))
    = drop (length evs) (tx_pending (uart0 m)).
Proof.
  induction evs as [| [status dr] evs IH]; intros m Hev Hv.
  - simpl. rewrite app_nil_r, drop_0. repeat split; apply Hv.
  - inversion Hev as [| ev evs' Hev1 Hev2]; subst.
    destruct (ISR_tx_step status dr m Hev1 Hv) as (Hv1 & Hd1 & Hp1).
    destruct (IH _ Hev2 Hv1) as (Hv2 & Hd2 & Hp2).
    simpl isr_all. simpl length.
    split; [exact Hv2 |]. split.
    + rewrite Hd2, Hd1, Hp1, (take_succ_split _ (length evs)), app_assoc.
      reflexivity.
    + rewrite Hp2, Hp1, drop_drop. reflexivity.
Qed.

(** Characters accepted in a row join the pending ones in order. *)
Lemma putch_all_pending (cs : list byte) :
  forall m : machine,
    tx_indices_valid (uart0 m) ->
    length (txbuf (uart0 m)) = Z.to_nat UART_TXBUF_SIZE ->
    Z.of_nat (length (tx_pending (uart0 m))) + Z.of_nat (length cs)
      <= UART_TXBUF_SIZE - 1 ->
    let m' := snd (putch_all cs m) in
    tx_indices_valid (uart0 m') /\
    tx_pending (uart0 m') = tx_pending (uart0 m) ++ cs /\
    usart_dr m' = usart_dr m.
Proof.
  induction cs as [| c cs IH]; intros m Hv Hlen Hfit; cbv zeta.
  - simpl. rewrite app_nil_r. repeat split; apply Hv.
  - simpl length in Hfit.
    assert (Hroom : ~ tx_full (uart0 m)).
    { intros Hfull.
      apply (ring_full_count _ tx_size_pos) in Hfull; [| apply Hv | apply Hv].
      rewrite <- tx_pending_length in Hfull. lia. }
    destruct (uart_putch_when_room c m Hv Hroom)
      as (m1 & Hput & Hv1 & _ & _ & Hlen1 & Hd1 & _ & Hp1).
    specialize (Hp1 Hlen).
    simpl putch_all. rewrite Hput.
    assert (Hfit1 : Z.of_nat (length (tx_pending (uart0 m1)))
                    + Z.of_nat (length cs) <= UART_TXBUF_SIZE - 1).
    { rewrite Hp1, length_app. simpl length. lia. }
    specialize (IH m1 Hv1 (eq_trans Hlen1 Hlen) Hfit1). cbv zeta in IH.
    destruct (putch_all cs m1) as [rs m2]. simpl in IH |- *.
    destruct IH as (Hv2 & Hp2 & Hd2).
    split; [exact Hv2 |]. split.
    + rewrite Hp2, Hp1, <- app_assoc. reflexivity.
    + rewrite Hd2. exact Hd1.
Qed.

(** Bytes received in a row, while there is room, join the pending ones
    in order. *)
Lemma isr_all_fill (evs : list (Z * Z)) :
  forall m : machine,
    Forall rx_event evs ->
    rx_indices_valid (uart0 m) ->
    length (rxbuf (uart0 m)) = Z.to_nat UART_RXBUF_SIZE ->
    Z.of_nat (length (rx_pending (uart0 m))) + Z.of_nat (length evs)
      <= UART_RXBUF_SIZE - 1 ->
    rx_indices_valid (uart0 (isr_all evs m)) /\
    rx_pending (uart0 (isr_all evs m))
    = rx_pending (uart0 m) ++ map (fun ev => uchar_of_int (snd ev)) evs.
Proof.
  induction evs as [| [status dr] evs IH]; intros m Hev Hv Hlen Hfit.
  - simpl. rewrite app_nil_r. split; [exact Hv | reflexivity].
  - inversion Hev as [| ev evs' Hev1 Hev2]; subst.
    simpl length in Hfit.
    assert (Hroom : ~ rx_full (uart0 m)).
    { intros Hfull.
      apply (ring_full_count _ rx_size_pos) in Hfull; [| apply Hv | apply Hv].
      rewrite <- rx_pending_length in Hfull. lia. }
    destruct (ISR_rx_step status dr m Hev1 Hv Hlen) as (Hv1 & Hlen1 & Hp1).
    specialize (Hp1 Hroom).
    assert (Hfit1 : Z.of_nat (length (rx_pending
                                        (uart0 (ISR_USART2 status dr m))))
                    + Z.of_nat (length evs) <= UART_RXBUF_SIZE - 1).
    { rewrite Hp1, length_app. simpl length. lia. }
    destruct (IH _ Hev2 Hv1 Hlen1 Hfit1) as (Hv2 & Hp2).
    simpl isr_all. split; [exact Hv2 |].
    rewrite Hp2, Hp1, <- app_assoc. reflexivity.
Qed.

(** Calls of [uart_getch] in a row return the pending bytes, oldest
    first, and then [-1]. *)
Lemma getch_n_results (n : nat) :
  forall m : machine,
    rx_indices_valid (uart0 m) ->
    fst (getch_n n m)
    = map int_of_uchar (take n (rx_pending (uart0 m)))
      ++ replicate (n - length (rx_pending (uart0 m))) (-1).
Proof.
  induction n as [| n IH]; intros m Hv; [reflexivity |].
  assert (Hs := uart_getch_step m Hv).
  simpl getch_n. destruct (uart_getch m) as [r m1].
  destruct Hs as [Hv1 Hs].
  specialize (IH m1 Hv1). destruct (getch_n n m1) as [rs m2].
  simpl in IH |- *. rewrite IH.
  destruct (rx_pending (uart0 m)) as [| b bs] eqn:Hp.
  - destruct Hs as [-> ->]. rewrite Hp. destruct n; reflexivity.
  - destruct Hs as [-> ->]. reflexivity.
Qed.


Lemma tx_pending_nil (q : uart_fifo_type) :
  tx_indices_valid q -> tx_pending q = [] -> tx_empty q.
Proof.
  intros [Hh Ht] Hp. unfold tx_empty.
  apply (ring_count_zero _ tx_size_pos); [assumption | assumption |].
  rewrite <- tx_pending_length, Hp. reflexivity.
Qed.



(** * Properties *)

(** C1.  Starting from an empty transmit buffer, with no handler
    invocation in between, the first [UART_TXBUF_SIZE - 1] calls of
    [uart_putch] return the success status [0] and every later call, the
    [UART_TXBUF_SIZE]-th first of all, returns the queue-full status [-1];
    the two statuses differ. *)
Theorem uart_putch_capacity (m : machine) (cs : list byte) :
  tx_indices_valid (uart0 m) ->
  tx_empty (uart0 m) ->
  fst (putch_all cs m)
  = replicate (Nat.min (length cs) (Z.to_nat (UART_TXBUF_SIZE - 1)))
      (char_of_int 0)
    ++ replicate (length cs - Z.to_nat (UART_TXBUF_SIZE - 1))
         (char_of_int (-1))
  /\ (length cs = Z.to_nat UART_TXBUF_SIZE ->
      fst (putch_all cs m)
      = replicate (Z.to_nat (UART_TXBUF_SIZE - 1)) (char_of_int 0)
        ++ [char_of_int (-1)])
  /\ char_of_int 0 <> char_of_int (-1).
Proof.
  intros Hv He.
  assert (Hres := putch_all_results cs m Hv). cbv zeta in Hres.
  unfold tx_empty in He. rewrite He in Hres.
  rewrite (ring_count_empty _ tx_size_pos), Z.sub_0_r in Hres.
  split; [exact Hres |]. split.
  - intros Hlen. rewrite Hres, Hlen. reflexivity.
  - discriminate.
Qed.

(** C2.  The circular buffers are FIFO queues.  Transmit side: [N] bytes,
    [N <= UART_TXBUF_SIZE - 1], given to [uart_putch] from an empty
    transmit buffer and then taken by [N] transmit-ready invocations of the
    handler reach [USART_DR] in the order they were given.  Receive side:
    [N] bytes, [N <= UART_RXBUF_SIZE - 1], stored by [N] receive
    invocations of the handler into an empty receive buffer are returned by
    the next [N] calls of [uart_getch] in the order they arrived (each is
    the low eight bits of the value read from [USART_DR]). *)
Theorem fifo_order :
  (forall (m : machine) (cs : list byte) (evs : list (Z * Z)),
      tx_indices_valid (uart0 m) ->
      length (txbuf (uart0 m)) = Z.to_nat UART_TXBUF_SIZE ->
      tx_empty (uart0 m) ->
      Z.of_nat (length cs) <= UART_TXBUF_SIZE - 1 ->
      Forall tx_event evs ->
      length evs = length cs ->
      usart_dr (isr_all evs (snd (putch_all cs m))) = usart_dr m ++ cs)
  /\
  (forall (m : machine) (evs : list (Z * Z)),
      rx_indices_valid (uart0 m) ->
      length (rxbuf (uart0 m)) = Z.to_nat UART_RXBUF_SIZE ->
      rx_empty (uart0 m) ->
      Z.of_nat (length evs) <= UART_RXBUF_SIZE - 1 ->
      Forall rx_event evs ->
      fst (getch_n (length evs) (isr_all evs m))
      = map (fun ev => snd ev mod 256) evs).
Proof.
  split.
  - intros m cs evs Hv Hlen He Hn Hev Hl.
    assert (Hfit : Z.of_nat (length (tx_pending (uart0 m)))
                   + Z.of_nat (length cs) <= UART_TXBUF_SIZE - 1).
    { rewrite (tx_pending_empty _ He). simpl length. lia. }
    destruct (putch_all_pending cs m Hv Hlen Hfit) as (Hv1 & Hp1 & Hd1).
    destruct (isr_all_drain evs _ Hev Hv1) as (_ & Hd2 & _).
    rewrite Hd2, Hd1, Hp1, (tx_pending_empty _ He), Hl.
    simpl. rewrite firstn_all. reflexivity.
  - intros m evs Hv Hlen He Hn Hev.
    assert (Hfit : Z.of_nat (length (rx_pending (uart0 m)))
                   + Z.of_nat (length evs) <= UART_RXBUF_SIZE - 1).
    { rewrite (rx_pending_empty _ He). simpl length. lia. }
    destruct (isr_all_fill evs m Hev Hv Hlen Hfit) as (Hv1 & Hp1).
    rewrite (getch_n_results _ _ Hv1), Hp1, (rx_pending_empty _ He).
    simpl app.
    replace (length evs)
      with (length (map (fun ev : Z * Z => uchar_of_int (snd ev)) evs))
      at 1 2 by apply length_map.
    rewrite firstn_all, Nat.sub_diag. simpl. rewrite app_nil_r.
    rewrite map_map. apply map_ext. intros ev. apply int_of_uchar_of_int.
Qed.

(** C3.  When the transmit buffer is full, [uart_putch] returns the
    failure status and the machine it leaves is the machine it found: the
    character is not stored, no index moves and [USART_CR1] keeps its
    value. *)
Theorem uart_putch_full (c : byte) (m : machine) :
  0 <= txhead (uart0 m) < UART_TXBUF_SIZE ->
  tx_full (uart0 m) ->
  uart_putch c m = (char_of_int (-1), m).
Proof. apply uart_putch_when_full. Qed.

(** C4.  [uart_getch] returns the no-data value [-1] exactly when
    [rxhead] equals [rxtail], and then leaves the machine alone; otherwise
    it returns the byte at [rxbuf[rxtail]], the oldest one pending, and
    advances [rxtail] by one modulo [UART_RXBUF_SIZE], changing nothing
    else. *)
Theorem uart_getch_spec (m : machine) :
  let q := uart0 m in
  (fst (uart_getch m) = -1 <-> rxhead q = rxtail q) /\
  (rxhead q = rxtail q -> uart_getch m = (-1, m)) /\
  (rxhead q <> rxtail q ->
   0 <= rxtail q < UART_RXBUF_SIZE ->
   uart_getch m
   = (int_of_uchar (array_get (rxbuf q) (rxtail q)),
      with_uart0
        (Fifo (rxbuf q) (txbuf q) (rxhead q)
              ((rxtail q + 1) mod UART_RXBUF_SIZE) (txhead q) (txtail q)) m)
   /\ (0 <= rxhead q < UART_RXBUF_SIZE ->
       exists bs, rx_pending q = array_get (rxbuf q) (rxtail q) :: bs)).
Proof.
  cbv zeta. split; [| split].
  - unfold uart_getch. cbv zeta.
    destruct (Z.eqb_spec (rxtail (uart0 m)) (rxhead (uart0 m))) as [E | N];
      simpl.
    + split; [intros _; symmetry; exact E | reflexivity].
    + split; [| intros E; symmetry in E; contradiction].
      intros H.
      assert (Hr := int_of_uchar_range
                      (array_get (rxbuf (uart0 m)) (rxtail (uart0 m)))).
      lia.
  - intros E. unfold uart_getch. cbv zeta.
    rewrite E, Z.eqb_refl. reflexivity.
  - intros N Ht. split.
    + rewrite uart_getch_eq by assumption. cbv zeta.
      destruct (Z.eqb_spec (rxtail (uart0 m)) (rxhead (uart0 m))) as [E | _];
        [symmetry in E; contradiction | reflexivity].
    + intros Hh. eexists. unfold rx_pending.
      apply (ring_pending_pop _ rx_size_pos); assumption.
Qed.

(** C5.  A receive event that finds the receive buffer full changes
    neither [rxbuf] nor [rxhead] nor [rxtail]: the new byte is dropped.
    The receive path changes the counter [serial_rxbytes] and nothing else,
    adding one to it (an [unsigned long], so modulo [2^32]). *)
Theorem rx_overflow_drop (status dr : Z) (m : machine) :
  Z.land status USART_RXNE <> 0 ->
  0 <= rxhead (uart0 m) < UART_RXBUF_SIZE ->
  rx_full (uart0 m) ->
  let m' := ISR_USART2 status dr m in
  rxbuf (uart0 m') = rxbuf (uart0 m) /\
  rxhead (uart0 m') = rxhead (uart0 m) /\
  rxtail (uart0 m') = rxtail (uart0 m) /\
  serial_rxbytes m' = wrap32 (serial_rxbytes m + 1) /\
  (0 <= serial_rxbytes m < 2 ^ 32 - 1 ->
   serial_rxbytes m' = serial_rxbytes m + 1) /\
  isr_receive dr m = with_serial_rxbytes (wrap32 (serial_rxbytes m + 1)) m.
Proof.
  intros Hrx Hh Hfull. cbv zeta.
  assert (Hpath : isr_receive dr m
                  = with_serial_rxbytes (wrap32 (serial_rxbytes m + 1)) m).
  { rewrite isr_receive_eq by assumption. cbv zeta.
    unfold rx_full in Hfull. rewrite Hfull, Z.eqb_refl. reflexivity. }
  assert (Hall : rxbuf (uart0 (ISR_USART2 status dr m)) = rxbuf (uart0 m) /\
                 rxhead (uart0 (ISR_USART2 status dr m)) = rxhead (uart0 m) /\
                 rxtail (uart0 (ISR_USART2 status dr m)) = rxtail (uart0 m) /\
                 serial_rxbytes (ISR_USART2 status dr m)
                 = wrap32 (serial_rxbytes m + 1)).
  { unfold ISR_USART2. cbv zeta.
    destruct (Z.eqb_spec (Z.land status USART_RXNE) 0) as [E | _];
      [contradiction |].
    cbn [negb]. rewrite Hpath.
    destruct (negb (Z.land status USART_TXE =? 0)).
    - destruct (isr_transmit_frame
                  (with_serial_rxbytes (wrap32 (serial_rxbytes m + 1)) m))
        as (Hb & Hhd & Htl & Hc & _).
      rewrite Hb, Hhd, Htl, Hc. repeat split; reflexivity.
    - repeat split; reflexivity. }
  destruct Hall as (Hb & Hhd & Htl & Hc).
  split; [exact Hb |]. split; [exact Hhd |]. split; [exact Htl |].
  split; [exact Hc |]. split; [| exact Hpath].
  intros Hrange. rewrite Hc. unfold wrap32. apply Z.mod_small. lia.
Qed.


(** C7.  Every invocation of the handler that takes the transmit-ready
    path adds exactly one to [serial_txbytes] (an [unsigned long], so
    modulo [2^32]), whether it sent a byte or found the buffer empty and
    disabled the interrupt. *)
Theorem tx_counter_increment (status dr : Z) (m : machine) :
  Z.land status USART_TXE <> 0 ->
  let m' := ISR_USART2 status dr m in
  serial_txbytes m' = wrap32 (serial_txbytes m + 1) /\
  (0 <= serial_txbytes m < 2 ^ 32 - 1 ->
   serial_txbytes m' = serial_txbytes m + 1) /\
  serial_txbytes (isr_transmit m) = wrap32 (serial_txbytes m + 1).
Proof.
  intros Htx. cbv zeta.
  assert (Hc : serial_txbytes (ISR_USART2 status dr m)
               = wrap32 (serial_txbytes m + 1)).
  { unfold ISR_USART2. cbv zeta.
    destruct (Z.eqb_spec (Z.land status USART_TXE) 0) as [E | _];
      [contradiction |].
    cbn [negb].
    destruct (negb (Z.land status USART_RXNE =? 0)).
    - destruct (isr_transmit_frame (isr_receive dr m))
        as (_ & _ & _ & _ & _ & _ & Ht).
      destruct (isr_receive_frame dr m) as (_ & _ & _ & _ & _ & Hr & _).
      rewrite Ht, Hr. reflexivity.
    - apply (isr_transmit_frame m). }
  split; [exact Hc |]. split.
  - intros Hrange. rewrite Hc. unfold wrap32. apply Z.mod_small. lia.
  - apply (isr_transmit_frame m).
Qed.

(** C8.  [setup_uart] sets the four indices and the two counters to zero
    from any machine, and calling it twice in a row leaves the machine that
    calling it once leaves. *)
Theorem setup_uart_idempotent (m : machine) :
  let m' := setup_uart m in
  rxhead (uart0 m') = 0 /\ rxtail (uart0 m') = 0 /\
  txhead (uart0 m') = 0 /\ txtail (uart0 m') = 0 /\
  serial_txbytes m' = 0 /\ serial_rxbytes m' = 0 /\
  setup_uart m' = m'.
Proof. cbv zeta. repeat split; reflexivity. Qed.

(** C9.  Valid indices stay valid: from a machine whose four indices lie
    within the bounds of their buffers, [uart_putch], [uart_getch], the
    receive path and the transmit path of the handler, the handler as a
    whole and [setup_uart] all lead to a machine whose four indices lie
    within the bounds ([setup_uart] does so from any machine). *)
Theorem indices_valid_preserved (m : machine) :
  indices_valid (uart0 m) ->
  (forall c, indices_valid (uart0 (snd (uart_putch c m)))) /\
  indices_valid (uart0 (snd (uart_getch m))) /\
  (forall dr, indices_valid (uart0 (isr_receive dr m))) /\
  indices_valid (uart0 (isr_transmit m)) /\
  (forall status dr, indices_valid (uart0 (ISR_USART2 status dr m))) /\
  (forall m0, indices_valid (uart0 (setup_uart m0))).
Proof.
  intros Hv.
  assert (Hrecv : forall m1 dr, indices_valid (uart0 m1) ->
                    indices_valid (uart0 (isr_receive dr m1))).
  { intros m1 dr [[Hrh Hrt] [Hth Htt]]. unfold isr_receive. cbv zeta.
    destruct (negb _); simpl.
    - split; split; try assumption. apply rx_advance_valid.
    - split; split; assumption. }
  assert (Hsend : forall m1, indices_valid (uart0 m1) ->
                    indices_valid (uart0 (isr_transmit m1))).
  { intros m1 [[Hrh Hrt] [Hth Htt]]. unfold isr_transmit. cbv zeta.
    destruct (negb _); simpl.
    - split; split; try assumption. apply tx_advance_valid.
    - split; split; assumption. }
  destruct Hv as [[Hrh Hrt] [Hth Htt]].
  split; [| split; [| split; [| split; [| split]]]].
  - intros c. unfold uart_putch. cbv zeta.
    destruct (_ =? _); simpl.
    + split; split; assumption.
    + split; split; try assumption. apply tx_advance_valid.
  - unfold uart_getch. cbv zeta.
    destruct (negb _); simpl.
    + split; split; try assumption. apply rx_advance_valid.
    + split; split; assumption.
  - intros dr. apply Hrecv. split; split; assumption.
  - apply Hsend. split; split; assumption.
  - intros status dr. unfold ISR_USART2. cbv zeta.
    assert (Hv : indices_valid (uart0 m)) by (split; split; assumption).
    destruct (negb (Z.land status USART_RXNE =? 0));
      destruct (negb (Z.land status USART_TXE =? 0));
      auto.
  - intros m0. simpl. unfold indices_valid, rx_indices_valid,
      tx_indices_valid. simpl. unfold_sizes. lia.
Qed.

(** C10.  The value returned by [uart_getch] is either [-1] or an integer
    between 0 and 255; a pending byte [0xFF] is returned as 255, never as
    the [-1] of the empty buffer. *)
Theorem uart_getch_range (m : machine) :
  let q := uart0 m in
  let r := fst (uart_getch m) in
  (r = -1 \/ 0 <= r <= 255) /\
  (rxhead q <> rxtail q -> 0 <= r <= 255) /\
  (rxhead q <> rxtail q -> array_get (rxbuf q) (rxtail q) = xff -> r = 255).
Proof.
  cbv zeta. unfold uart_getch. cbv zeta.
  destruct (Z.eqb_spec (rxtail (uart0 m)) (rxhead (uart0 m))) as [E | N];
    simpl.
  - split; [left; reflexivity |].
    split; intros H; symmetry in E; contradiction.
  - assert (Hr := int_of_uchar_range
                    (array_get (rxbuf (uart0 m)) (rxtail (uart0 m)))).
    split; [right; exact Hr |]. split; [intros _; exact Hr |].
    intros _ ->. reflexivity.
Qed.

(** * Further properties of the queue operations *)

(** ** What each operation leaves alone *)

Lemma uart_putch_frame (c : byte) (m : machine) :
  let m' := snd (uart_putch c m) in
  rxbuf (uart0 m') = rxbuf (uart0 m) /\
  rxhead (uart0 m') = rxhead (uart0 m) /\
  rxtail (uart0 m') = rxtail (uart0 m) /\
  txtail (uart0 m') = txtail (uart0 m) /\
  serial_txbytes m' = serial_txbytes m /\
  serial_rxbytes m' = serial_rxbytes m /\
  usart_dr m' = usart_dr m /\
  length (txbuf (uart0 m')) = length (txbuf (uart0 m)).
Proof.
  unfold uart_putch. cbv zeta.
  destruct (_ =? _); simpl; repeat split. apply array_set_length.
Qed.

Lemma uart_getch_frame (m : machine) :
  let m' := snd (uart_getch m) in
  rxbuf (uart0 m') = rxbuf (uart0 m) /\
  rxhead (uart0 m') = rxhead (uart0 m) /\
  txbuf (uart0 m') = txbuf (uart0 m) /\
  txhead (uart0 m') = txhead (uart0 m) /\
  txtail (uart0 m') = txtail (uart0 m) /\
  serial_txbytes m' = serial_txbytes m /\
  serial_rxbytes m' = serial_rxbytes m /\
  usart_dr m' = usart_dr m /\
  USART_CR1 m' = USART_CR1 m.
Proof.
  unfold uart_getch. cbv zeta.
  destruct (negb _); simpl; repeat split.
Qed.

Lemma isr_receive_well_formed (dr : Z) (m : machine) :
  well_formed m -> well_formed (isr_receive dr m).
Proof.
  intros ([[Hrh Hrt] [Hth Htt]] & Hlr & Hlt).
  unfold isr_receive. cbv zeta.
  destruct (negb _); simpl.
  - split; [split; split; try assumption; apply rx_advance_valid |].
    simpl. rewrite array_set_length. split; assumption.
  - split; [split; split; assumption |]. split; assumption.
Qed.

Lemma isr_transmit_well_formed (m : machine) :
  well_formed m -> well_formed (isr_transmit m).
Proof.
  intros ([[Hrh Hrt] [Hth Htt]] & Hlr & Hlt).
  unfold isr_transmit. cbv zeta.
  destruct (negb _); simpl.
  - split; [split; split; try assumption; apply tx_advance_valid |].
    split; assumption.
  - split; [split; split; assumption |]. split; assumption.
Qed.

Lemma step_well_formed (o : op) (m : machine) :
  well_formed m -> well_formed (step o m).
Proof.
  intros Hwf. destruct o as [c | | status dr]; simpl.
  - destruct Hwf as ([[Hrh Hrt] [Hth Htt]] & Hlr & Hlt).
    unfold uart_putch. cbv zeta.
    destruct (_ =? _); simpl.
    + split; [split; split; assumption |]. split; assumption.
    + split; [split; split; try assumption; apply tx_advance_valid |].
      simpl. rewrite array_set_length. split; assumption.
  - destruct Hwf as ([[Hrh Hrt] [Hth Htt]] & Hlr & Hlt).
    unfold uart_getch. cbv zeta.
    destruct (negb _); simpl.
    + split; [split; split; try assumption; apply rx_advance_valid |].
      split; assumption.
    + split; [split; split; assumption |]. split; assumption.
  - unfold ISR_USART2. cbv zeta.
    destruct (negb (Z.land status USART_RXNE =? 0));
      destruct (negb (Z.land status USART_TXE =? 0));
      auto using isr_receive_well_formed, isr_transmit_well_formed.
Qed.

Lemma run_well_formed (ops : list op) :
  forall m : machine, well_formed m -> well_formed (run ops m).
Proof.
  induction ops as [| o ops IH]; intros m Hwf; [exact Hwf |].
  simpl. apply IH, step_well_formed, Hwf.
Qed.

(** ** One step seen from the transmit queue *)

Lemma step_tx (o : op) (m : machine) :
  well_formed m ->
  usart_dr (step o m) ++ tx_pending (uart0 (step o m))
  = usart_dr m ++ tx_pending (uart0 m) ++ accepted o m.
Proof.
  intros ([_ Hv] & _ & Hlt).
  destruct o as [c | | status dr]; simpl step; simpl accepted.
  - destruct (tx_full_dec (uart0 m)) as [Hfull | Hroom].
    + rewrite uart_putch_when_full by (apply Hv || assumption).
      simpl. rewrite app_nil_r. reflexivity.
    + destruct (uart_putch_when_room c m Hv Hroom)
        as (m' & Hput & _ & _ & _ & _ & Hd & _ & Hp).
      rewrite Hput. simpl. rewrite Hd, (Hp Hlt). reflexivity.
  - destruct (uart_getch_frame m) as (_ & _ & Hb & Hh & Ht & _ & _ & Hd & _).
    rewrite Hd, (tx_pending_ext _ _ Hb Hh Ht), app_nil_r. reflexivity.
  - rewrite app_nil_r.
    destruct (Z.eq_dec (Z.land status USART_TXE) 0) as [E | N].
    + unfold ISR_USART2. cbv zeta. rewrite E. simpl.
      destruct (negb (Z.land status USART_RXNE =? 0)); [| reflexivity].
      destruct (isr_receive_frame dr m) as (Hb & Hh & Ht & Hd & _).
      rewrite Hd, (tx_pending_ext _ _ Hb Hh Ht). reflexivity.
    + destruct (ISR_tx_step status dr m N Hv) as (_ & Hd & Hp).
      rewrite Hd, Hp, <- app_assoc, take_drop. reflexivity.
Qed.

(** ** One step seen from the receive queue *)

(** The handler on the receive queue, whatever the status: the byte of a
    receive event joins the pending ones if there is room. *)
Lemma ISR_rx_pending (status dr : Z) (m : machine) :
  rx_indices_valid (uart0 m) ->
  length (rxbuf (uart0 m)) = Z.to_nat UART_RXBUF_SIZE ->
  let m' := ISR_USART2 status dr m in
  rx_indices_valid (uart0 m') /\
  length (rxbuf (uart0 m')) = Z.to_nat UART_RXBUF_SIZE /\
  rx_pending (uart0 m')
  = rx_pending (uart0 m) ++ stored (Interrupt status dr) m.
Proof.
  intros Hv Hlr. unfold ISR_USART2. cbv zeta. simpl stored.
  set (m1 := if negb (Z.land status USART_RXNE =? 0)
             then isr_receive dr m else m).
  assert (H1 : rx_indices_valid (uart0 m1) /\
               length (rxbuf (uart0 m1)) = Z.to_nat UART_RXBUF_SIZE /\
               rx_pending (uart0 m1)
               = rx_pending (uart0 m)
                 ++ (if negb (Z.land status USART_RXNE =? 0)
                     then if (rxhead (uart0 m) + 1) mod UART_RXBUF_SIZE
                             =? rxtail (uart0 m)
                          then [] else [uchar_of_int dr]
                     else [])).
  { subst m1. destruct (negb (Z.land status USART_RXNE =? 0)).
    - destruct (isr_receive_step dr m Hv Hlr) as (Hv1 & Hl1 & Hfull & Hroom).
      split; [exact Hv1 |]. split; [exact Hl1 |].
      unfold rx_full in Hfull, Hroom.
      destruct (Z.eqb_spec ((rxhead (uart0 m) + 1) mod UART_RXBUF_SIZE)
                  (rxtail (uart0 m))) as [E | N].
      + rewrite (Hfull E), app_nil_r. reflexivity.
      + apply Hroom, N.
    - rewrite app_nil_r. split; [exact Hv |]. split; [exact Hlr | reflexivity]. }
  destruct H1 as (Hv1 & Hl1 & Hp1). rewrite <- Hp1.
  destruct (negb (Z.land status USART_TXE =? 0)).
  - destruct (isr_transmit_frame m1) as (Hb & Hh & Ht & _).
    split; [unfold rx_indices_valid; rewrite Hh, Ht; exact Hv1 |].
    split; [rewrite Hb; exact Hl1 |].
    apply (rx_pending_ext _ _ Hb Hh Ht).
  - split; [exact Hv1 |]. split; [exact Hl1 | reflexivity].
Qed.

Lemma step_rx (o : op) (m : machine) :
  well_formed m ->
  returned o m ++ map int_of_uchar (rx_pending (uart0 (step o m)))
  = map int_of_uchar (rx_pending (uart0 m) ++ stored o m).
Proof.
  intros ([Hv _] & Hlr & _).
  destruct o as [c | | status dr].
  - simpl step. simpl returned. simpl stored.
    destruct (uart_putch_frame c m) as (Hb & Hh & Ht & _).
    rewrite (rx_pending_ext _ _ Hb Hh Ht), app_nil_r. reflexivity.
  - simpl step. simpl returned. simpl stored.
    rewrite app_nil_r. cbv zeta.
    assert (Hs := uart_getch_step m Hv).
    destruct (uart_getch m) as [r m']. simpl.
    destruct Hs as [_ Hs].
    destruct (rx_pending (uart0 m)) as [| b bs] eqn:Hp.
    + destruct Hs as [-> ->]. rewrite Hp. reflexivity.
    + destruct Hs as [-> ->].
      assert (Hr := int_of_uchar_range b).
      destruct (Z.eqb_spec (int_of_uchar b) (-1)) as [E | _]; [lia |].
      reflexivity.
  - destruct (ISR_rx_pending status dr m Hv Hlr) as (_ & _ & Hp).
    simpl step. simpl returned. rewrite Hp. reflexivity.
Qed.

(** ** Counting the events *)

Lemma wrap32_succ_add (x : Z) (n : nat) :
  wrap32 (wrap32 (x + 1) + Z.of_nat n) = wrap32 (x + Z.of_nat (S n)).
Proof.
  unfold wrap32. rewrite Zplus_mod_idemp_l. f_equal. lia.
Qed.

Lemma ISR_counters (status dr : Z) (m : machine) :
  let m' := ISR_USART2 status dr m in
  serial_rxbytes m'
  = (if rx_eventb (status, dr) then wrap32 (serial_rxbytes m + 1)
     else serial_rxbytes m) /\
  serial_txbytes m'
  = (if tx_eventb (status, dr) then wrap32 (serial_txbytes m + 1)
     else serial_txbytes m).
Proof.
  unfold ISR_USART2, rx_eventb, tx_eventb. cbv zeta. simpl fst.
  destruct (negb (Z.land status USART_RXNE =? 0));
    destruct (negb (Z.land status USART_TXE =? 0)).
  - destruct (isr_transmit_frame (isr_receive dr m))
      as (_ & _ & _ & Hr & _ & _ & Ht).
    destruct (isr_receive_frame dr m) as (_ & _ & _ & _ & _ & Ht' & _ & Hr').
    rewrite Hr, Ht, Hr', Ht'. split; reflexivity.
  - destruct (isr_receive_frame dr m) as (_ & _ & _ & _ & _ & Ht' & _ & Hr').
    split; assumption.
  - destruct (isr_transmit_frame m) as (_ & _ & _ & Hr & _ & _ & Ht).
    split; assumption.
  - split; reflexivity.
Qed.

Lemma isr_all_counters (evs : list (Z * Z)) :
  forall m : machine,
    0 <= serial_rxbytes m < 2 ^ 32 ->
    0 <= serial_txbytes m < 2 ^ 32 ->
    serial_rxbytes (isr_all evs m)
    = wrap32 (serial_rxbytes m
              + Z.of_nat (length (List.filter rx_eventb evs))) /\
    serial_txbytes (isr_all evs m)
    = wrap32 (serial_txbytes m
              + Z.of_nat (length (List.filter tx_eventb evs))).
Proof.
  induction evs as [| [status dr] evs IH]; intros m Hr Ht.
  - simpl. rewrite !Z.add_0_r. unfold wrap32.
    rewrite !Z.mod_small by assumption. split; reflexivity.
  - destruct (ISR_counters status dr m) as [Hcr Hct].
    assert (Hr1 : 0 <= serial_rxbytes (ISR_USART2 status dr m) < 2 ^ 32).
    { rewrite Hcr. destruct (rx_eventb _); [| exact Hr].
      apply Z.mod_pos_bound. reflexivity. }
    assert (Ht1 : 0 <= serial_txbytes (ISR_USART2 status dr m) < 2 ^ 32).
    { rewrite Hct. destruct (tx_eventb _); [| exact Ht].
      apply Z.mod_pos_bound. reflexivity. }
    destruct (IH _ Hr1 Ht1) as [IHr IHt].
    simpl isr_all. rewrite IHr, IHt, Hcr, Hct. simpl List.filter.
    split.
    + destruct (rx_eventb (status, dr)); [| reflexivity].
      apply wrap32_succ_add.
    + destruct (tx_eventb (status, dr)); [| reflexivity].
      apply wrap32_succ_add.
Qed.

(** Receive events fill the receive queue up to its [UART_RXBUF_SIZE - 1]
    usable slots and no further. *)
Lemma isr_all_rx_pending (evs : list (Z * Z)) :
  forall m : machine,
    rx_indices_valid (uart0 m) ->
    length (rxbuf (uart0 m)) = Z.to_nat UART_RXBUF_SIZE ->
    rx_pending (uart0 (isr_all evs m))
    = take (Z.to_nat (UART_RXBUF_SIZE - 1))
        (rx_pending (uart0 m)
         ++ map (fun ev => uchar_of_int (snd ev)) (List.filter rx_eventb evs)).
Proof.
  induction evs as [| [status dr] evs IH]; intros m Hv Hlr.
  - simpl. rewrite app_nil_r, take_ge; [reflexivity |].
    assert (Hl := rx_pending_length (uart0 m)).
    assert (Hc := ring_count_range _ rx_size_pos
                    (rxhead (uart0 m)) (rxtail (uart0 m))).
    unfold_sizes. lia.
  - destruct (ISR_rx_pending status dr m Hv Hlr) as (Hv1 & Hl1 & Hp1).
    simpl isr_all. rewrite (IH _ Hv1 Hl1), Hp1. clear IH.
    simpl stored. simpl List.filter. unfold rx_eventb at 2. simpl fst.
    destruct (negb (Z.land status USART_RXNE =? 0)).
    + destruct (Z.eqb_spec ((rxhead (uart0 m) + 1) mod UART_RXBUF_SIZE)
                  (rxtail (uart0 m))) as [E | N].
      * apply (ring_full_count _ rx_size_pos) in E; [| apply Hv | apply Hv].
        rewrite <- rx_pending_length in E.
        rewrite app_nil_r.
        rewrite !take_app_le by (unfold_sizes; lia). reflexivity.
      * simpl map. rewrite <- app_assoc. reflexivity.
    + rewrite app_nil_r. reflexivity.
Qed.

Lemma getch_n_pending (n : nat) :
  forall m : machine,
    rx_indices_valid (uart0 m) ->
    rx_indices_valid (uart0 (snd (getch_n n m))) /\
    rx_pending (uart0 (snd (getch_n n m))) = drop n (rx_pending (uart0 m)).
Proof.
  induction n as [| n IH]; intros m Hv.
  - simpl. rewrite drop_0. split; [exact Hv | reflexivity].
  - assert (Hs := uart_getch_step m Hv).
    simpl getch_n. destruct (uart_getch m) as [r m1].
    destruct Hs as [Hv1 Hs].
    destruct (IH m1 Hv1) as [Hv2 Hp2].
    destruct (getch_n n m1) as [rs m2]. simpl in Hv2, Hp2 |- *.
    split; [exact Hv2 |]. rewrite Hp2.
    destruct (rx_pending (uart0 m)) as [| b bs] eqn:Hp.
    + destruct Hs as [_ ->]. rewrite Hp. rewrite drop_nil. reflexivity.
    + destruct Hs as [_ ->]. reflexivity.
Qed.

(** ** The extra properties *)

(** X1.  With [n] bytes pending in the transmit buffer, a run of
    [uart_putch] calls with no handler in between has exactly
    [UART_TXBUF_SIZE - 1 - n] accepted, and every later one refused. *)
Theorem uart_putch_free_slots (m : machine) (cs : list byte) :
  tx_indices_valid (uart0 m) ->
  let free := (Z.to_nat (UART_TXBUF_SIZE - 1)
               - length (tx_pending (uart0 m)))%nat in
  fst (putch_all cs m)
  = replicate (Nat.min (length cs) free) (char_of_int 0)
    ++ replicate (length cs - free) (char_of_int (-1)).
Proof.
  intros Hv. cbv zeta.
  assert (Hres := putch_all_results cs m Hv). cbv zeta in Hres.
  rewrite <- tx_pending_length in Hres.
  replace (Z.to_nat (UART_TXBUF_SIZE - 1
                     - Z.of_nat (length (tx_pending (uart0 m)))))
    with (Z.to_nat (UART_TXBUF_SIZE - 1)
          - length (tx_pending (uart0 m)))%nat in Hres by lia.
  exact Hres.
Qed.

(** X2.  [uart_putch] returns the success status exactly when the
    transmit buffer is not full, that is when fewer than
    [UART_TXBUF_SIZE - 1] bytes are pending; the accepted character becomes
    the newest pending byte, nothing is sent yet, and the transmitter-ready
    interrupt is enabled. *)
Theorem uart_putch_accepts (c : byte) (m : machine) :
  tx_indices_valid (uart0 m) ->
  length (txbuf (uart0 m)) = Z.to_nat UART_TXBUF_SIZE ->
  (fst (uart_putch c m) = char_of_int 0
   <-> (length (tx_pending (uart0 m)) < Z.to_nat (UART_TXBUF_SIZE - 1))%nat)
  /\ (fst (uart_putch c m) = char_of_int 0 ->
      tx_pending (uart0 (snd (uart_putch c m)))
      = tx_pending (uart0 m) ++ [c] /\
      usart_dr (snd (uart_putch c m)) = usart_dr m /\
      txeie_set (snd (uart_putch c m))).
Proof.
  intros Hv Hlt.
  assert (Hfull : tx_full (uart0 m)
                  <-> Z.of_nat (length (tx_pending (uart0 m)))
                      = UART_TXBUF_SIZE - 1).
  { rewrite tx_pending_length.
    apply (ring_full_count _ tx_size_pos); apply Hv. }
  assert (Hrange : Z.of_nat (length (tx_pending (uart0 m)))
                   < UART_TXBUF_SIZE).
  { rewrite tx_pending_length. apply (ring_count_range _ tx_size_pos). }
  destruct (tx_full_dec (uart0 m)) as [Hf | Hroom].
  - rewrite uart_putch_when_full by (apply Hv || assumption). simpl.
    apply Hfull in Hf. split.
    + split; [discriminate | unfold_sizes; lia].
    + discriminate.
  - destruct (uart_putch_when_room c m Hv Hroom)
      as (m' & Hput & _ & _ & _ & _ & Hd & Hset & Hp).
    rewrite Hput. simpl. split.
    + split; [| reflexivity]. intros _.
      assert (Hn : Z.of_nat (length (tx_pending (uart0 m)))
                   <> UART_TXBUF_SIZE - 1)
        by (intros E; apply Hroom, Hfull, E).
      unfold_sizes. lia.
    + intros _. split; [apply Hp, Hlt |]. split; assumption.
Qed.

(** X3.  Overflow on receive keeps the oldest bytes: after any run of
    handler invocations the pending receive bytes are the first
    [UART_RXBUF_SIZE - 1] of those pending before followed by those of the
    receive events, in order; what arrives beyond is dropped. *)
Theorem rx_overflow_keeps_oldest (m : machine) (evs : list (Z * Z)) :
  rx_indices_valid (uart0 m) ->
  length (rxbuf (uart0 m)) = Z.to_nat UART_RXBUF_SIZE ->
  rx_pending (uart0 (isr_all evs m))
  = take (Z.to_nat (UART_RXBUF_SIZE - 1))
      (rx_pending (uart0 m)
       ++ map (fun ev => uchar_of_int (snd ev)) (List.filter rx_eventb evs)).
Proof. intros Hv Hlr. apply isr_all_rx_pending; assumption. Qed.

(** X4.  The statistics count handler events, not queue contents: after
    any run of handler invocations [serial_rxbytes] has grown by the number
    of receive events, dropped bytes included, and [serial_txbytes] by the
    number of transmit-ready events, idle ones included, both modulo
    [2^32]. *)
Theorem handler_counts_events (m : machine) (evs : list (Z * Z)) :
  0 <= serial_rxbytes m < 2 ^ 32 ->
  0 <= serial_txbytes m < 2 ^ 32 ->
  serial_rxbytes (isr_all evs m)
  = wrap32 (serial_rxbytes m
            + Z.of_nat (length (List.filter rx_eventb evs))) /\
  serial_txbytes (isr_all evs m)
  = wrap32 (serial_txbytes m
            + Z.of_nat (length (List.filter tx_eventb evs))).
Proof. intros Hr Ht. apply isr_all_counters; assumption. Qed.

(** X5.  Transmit-ready invocations send the pending bytes one per
    invocation, oldest first, and nothing else: [n] invocations send the
    first [n] pending bytes and leave the others pending; once all are sent
    the buffer is empty and further invocations send nothing. *)
Theorem tx_drain_prefix (m : machine) (evs : list (Z * Z)) :
  tx_indices_valid (uart0 m) ->
  Forall tx_event evs ->
  let m' := isr_all evs m in
  usart_dr m' = usart_dr m ++ take (length evs) (tx_pending (uart0 m)) /\
  tx_pending (uart0 m') = drop (length evs) (tx_pending (uart0 m)) /\
  ((length (tx_pending (uart0 m)) <= length evs)%nat ->
   usart_dr m' = usart_dr m ++ tx_pending (uart0 m) /\ tx_empty (uart0 m')).
Proof.
  intros Hv Hev. cbv zeta.
  destruct (isr_all_drain evs m Hev Hv) as (Hv' & Hd & Hp).
  split; [exact Hd |]. split; [exact Hp |].
  intros Hlen. split.
  - rewrite Hd, take_ge by exact Hlen. reflexivity.
  - apply tx_pending_nil; [exact Hv' |].
    rewrite Hp. apply drop_ge. exact Hlen.
Qed.


(** X7.  Transmit side, any interleaving of [uart_putch], [uart_getch]
    and handler invocations: the bytes sent so far followed by the bytes
    still pending are what they were at the start followed by the accepted
    characters, in the order of the calls.  No accepted character is lost,
    duplicated or reordered, and no other byte is sent. *)
Theorem tx_interleaved_fifo (ops : list op) :
  forall m : machine,
    well_formed m ->
    usart_dr (run ops m) ++ tx_pending (uart0 (run ops m))
    = usart_dr m ++ tx_pending (uart0 m) ++ collect accepted ops m.
Proof.
  induction ops as [| o ops IH]; intros m Hwf.
  - simpl. rewrite app_nil_r. reflexivity.
  - simpl run. simpl collect.
    rewrite (IH _ (step_well_formed o m Hwf)).
    rewrite app_assoc, (step_tx o m Hwf), <- !app_assoc. reflexivity.
Qed.

(** X8.  Receive side, any interleaving: the values [uart_getch] returned
    other than [-1], followed by the bytes still pending, are the bytes
    pending at the start followed by the bytes of the receive events that
    found room, in order of arrival. *)
Theorem rx_interleaved_fifo (ops : list op) :
  forall m : machine,
    well_formed m ->
    collect returned ops m
    ++ map int_of_uchar (rx_pending (uart0 (run ops m)))
    = map int_of_uchar (rx_pending (uart0 m) ++ collect stored ops m).
Proof.
  induction ops as [| o ops IH]; intros m Hwf.
  - simpl. rewrite app_nil_r. reflexivity.
  - simpl run. simpl collect.
    rewrite <- app_assoc, (IH _ (step_well_formed o m Hwf)).
    rewrite map_app, app_assoc, (step_rx o m Hwf).
    rewrite <- map_app, <- app_assoc. reflexivity.
Qed.

(** X9.  Back-pressure is released by one sent byte: when the transmit
    buffer is full, after one transmit-ready invocation of the handler the
    next [uart_putch] is accepted. *)
Theorem tx_backpressure_release (status dr : Z) (c : byte) (m : machine) :
  tx_indices_valid (uart0 m) ->
  tx_full (uart0 m) ->
  Z.land status USART_TXE <> 0 ->
  fst (uart_putch c m) = char_of_int (-1) /\
  fst (uart_putch c (ISR_USART2 status dr m)) = char_of_int 0.
Proof.
  intros Hv Hfull Htx. split.
  - rewrite uart_putch_when_full by (apply Hv || assumption). reflexivity.
  - apply (ring_full_count _ tx_size_pos) in Hfull; [| apply Hv | apply Hv].
    rewrite <- tx_pending_length in Hfull.
    destruct (ISR_tx_step status dr m Htx Hv) as (Hv1 & _ & Hp1).
    assert (Hroom : ~ tx_full (uart0 (ISR_USART2 status dr m))).
    { intros Hf.
      apply (ring_full_count _ tx_size_pos) in Hf; [| apply Hv1 | apply Hv1].
      rewrite <- tx_pending_length, Hp1, length_drop in Hf.
      unfold_sizes. lia. }
    destruct (uart_putch_when_room c _ Hv1 Hroom) as (m' & Hput & _).
    rewrite Hput. reflexivity.
Qed.

(** X10.  Room is made by one [uart_getch]: when the receive buffer is
    full, a byte arriving is dropped, but after one call of [uart_getch]
    the next byte arriving is stored behind the remaining ones. *)
Theorem rx_room_after_getch (status dr : Z) (m : machine) :
  rx_indices_valid (uart0 m) ->
  length (rxbuf (uart0 m)) = Z.to_nat UART_RXBUF_SIZE ->
  rx_full (uart0 m) ->
  Z.land status USART_RXNE <> 0 ->
  rx_pending (uart0 (ISR_USART2 status dr m)) = rx_pending (uart0 m) /\
  rx_pending (uart0 (ISR_USART2 status dr (snd (uart_getch m))))
  = drop 1 (rx_pending (uart0 m)) ++ [uchar_of_int dr].
Proof.
  intros Hv Hlr Hfull Hrx.
  assert (Hbit : negb (Z.land status USART_RXNE =? 0) = true).
  { destruct (Z.eqb_spec (Z.land status USART_RXNE) 0); [contradiction |].
    reflexivity. }
  split.
  - destruct (ISR_rx_pending status dr m Hv Hlr) as (_ & _ & Hp).
    rewrite Hp. simpl stored. rewrite Hbit.
    unfold rx_full in Hfull. rewrite Hfull, Z.eqb_refl. apply app_nil_r.
  - assert (Hlen : Z.of_nat (length (rx_pending (uart0 m)))
                   = UART_RXBUF_SIZE - 1).
    { rewrite rx_pending_length.
      apply (ring_full_count _ rx_size_pos); [apply Hv | apply Hv | exact Hfull]. }
    destruct (getch_n_pending 1 m Hv) as [Hv1 Hp1].
    simpl getch_n in Hv1, Hp1.
    destruct (uart_getch_frame m) as (Hb & _).
    destruct (uart_getch m) as [r m1]. simpl in Hv1, Hp1, Hb |- *.
    assert (Hlr1 : length (rxbuf (uart0 m1)) = Z.to_nat UART_RXBUF_SIZE)
      by (rewrite Hb; exact Hlr).
    destruct (ISR_rx_step status dr m1 Hrx Hv1 Hlr1) as (_ & _ & Hroom).
    rewrite <- Hp1. apply Hroom.
    intros Hf.
    apply (ring_full_count _ rx_size_pos) in Hf; [| apply Hv1 | apply Hv1].
    rewrite <- rx_pending_length, Hp1, length_drop in Hf.
    unfold_sizes. lia.
Qed.

(** X11.  [setup_uart] recovers from any machine, valid or not: it
    discards whatever was pending in both queues, so that [uart_getch]
    returns [-1] and a run of [uart_putch] has its first
    [UART_TXBUF_SIZE - 1] characters accepted; it leaves the buffers and
    the bytes already sent alone, and sets the receive interrupt
    enable. *)
Theorem setup_uart_recovers (m : machine) :
  let m' := setup_uart m in
  rx_pending (uart0 m') = [] /\
  tx_pending (uart0 m') = [] /\
  uart_getch m' = (-1, m') /\
  (forall cs,
      fst (putch_all cs m')
      = replicate (Nat.min (length cs) (Z.to_nat (UART_TXBUF_SIZE - 1)))
          (char_of_int 0)
        ++ replicate (length cs - Z.to_nat (UART_TXBUF_SIZE - 1))
             (char_of_int (-1))) /\
  rxbuf (uart0 m') = rxbuf (uart0 m) /\
  txbuf (uart0 m') = txbuf (uart0 m) /\
  usart_dr m' = usart_dr m /\
  Z.land (USART_CR1 m') USART_RXNEIE = USART_RXNEIE.
Proof.
  cbv zeta.
  split; [reflexivity |]. split; [reflexivity |]. split; [reflexivity |].
  split.
  - intros cs.
    assert (Hv : tx_indices_valid (uart0 (setup_uart m)))
      by (unfold tx_indices_valid; simpl; unfold_sizes; lia).
    assert (Hres := putch_all_results cs (setup_uart m) Hv).
    cbv zeta in Hres. exact Hres.
  - split; [reflexivity |]. split; [reflexivity |]. split; [reflexivity |].
    simpl. apply land_lor_mask.
Qed.

(** X12.  One writer per index.  On a machine whose indices are valid,
    [uart_putch] never changes [txtail] nor anything of the receive queue;
    [uart_getch] changes nothing but [rxtail]; the handler, whatever its
    status, never changes [rxtail], [txhead] or [txbuf].  So each head is
    written by its producer only and each tail by its consumer only. *)
Theorem single_writer (m : machine) :
  indices_valid (uart0 m) ->
  (forall c,
      let m' := snd (uart_putch c m) in
      txtail (uart0 m') = txtail (uart0 m) /\
      rxbuf (uart0 m') = rxbuf (uart0 m) /\
      rxhead (uart0 m') = rxhead (uart0 m) /\
      rxtail (uart0 m') = rxtail (uart0 m)) /\
  (let m' := snd (uart_getch m) in
   rxhead (uart0 m') = rxhead (uart0 m) /\
   rxbuf (uart0 m') = rxbuf (uart0 m) /\
   txbuf (uart0 m') = txbuf (uart0 m) /\
   txhead (uart0 m') = txhead (uart0 m) /\
   txtail (uart0 m') = txtail (uart0 m)) /\
  (forall status dr,
      let m' := ISR_USART2 status dr m in
      rxtail (uart0 m') = rxtail (uart0 m) /\
      txhead (uart0 m') = txhead (uart0 m) /\
      txbuf (uart0 m') = txbuf (uart0 m)).
Proof.
  intros _.
  split; [| split].
  - intros c. cbv zeta.
    destruct (uart_putch_frame c m) as (Hb & Hh & Ht & Htt & _).
    repeat split; assumption.
  - cbv zeta.
    destruct (uart_getch_frame m) as (Hb & Hh & Htb & Hth & Htt & _).
    repeat split; assumption.
  - intros status dr. cbv zeta. unfold ISR_USART2. cbv zeta.
    destruct (negb (Z.land status USART_RXNE =? 0));
      destruct (negb (Z.land status USART_TXE =? 0)).
    + destruct (isr_transmit_frame (isr_receive dr m))
        as (_ & _ & Ht & _ & Htb & Hth & _).
      destruct (isr_receive_frame dr m)
        as (Htb' & Hth' & _ & _ & _ & _ & Ht' & _).
      rewrite Ht, Htb, Hth. repeat split; assumption.
    + destruct (isr_receive_frame dr m)
        as (Htb' & Hth' & _ & _ & _ & _ & Ht' & _).
      repeat split; assumption.
    + destruct (isr_transmit_frame m) as (_ & _ & Ht & _ & Htb & Hth & _).
      repeat split; assumption.
    + repeat split; reflexivity.
Qed.

(** X13.  A run of [uart_getch] calls with no handler in between returns
    the pending bytes, oldest first and zero-extended, then [-1] at every
    further call; the bytes not yet returned stay pending in order. *)
Theorem uart_getch_run (m : machine) (n : nat) :
  rx_indices_valid (uart0 m) ->
  fst (getch_n n m)
  = map int_of_uchar (take n (rx_pending (uart0 m)))
    ++ replicate (n - length (rx_pending (uart0 m))) (-1) /\
  rx_pending (uart0 (snd (getch_n n m))) = drop n (rx_pending (uart0 m)).
Proof.
  intros Hv. split.
  - apply getch_n_results, Hv.
  - apply getch_n_pending, Hv.
Qed.

End Serial.

(** * The properties on the sample configuration *)

Ltac by_evaluation :=
  vm_compute; repeat split; try reflexivity; try discriminate.

(** 128 calls from the reset machine: 127 successes, then the refusal. *)
Lemma uart_putch_capacity_witness :
  tx_indices_valid (uart0 Sample.reset) /\
  tx_empty (uart0 Sample.reset) /\
  fst (putch_all Sample.TXEIE (replicate 128 x41) Sample.reset)
  = replicate 127 (char_of_int 0) ++ [char_of_int (-1)].
Proof.
  split; [by_evaluation |]. split; [by_evaluation |].
  apply (uart_putch_capacity Sample.TXEIE Sample.reset (replicate 128 x41));
    by_evaluation.
Defined.

(** "ABC" through the transmit queue and "123" through the receive
    queue. *)
Lemma fifo_order_witness :
  usart_dr
    (isr_all Sample.RXNE Sample.TXE Sample.TXEIE
       [(Sample.TXE, 0); (Sample.TXE, 0); (Sample.TXE, 0)]
       (snd (putch_all Sample.TXEIE [x41; x42; x43] Sample.reset)))
  = [x41; x42; x43]
  /\
  fst (getch_n 3
         (isr_all Sample.RXNE Sample.TXE Sample.TXEIE
            [(Sample.RXNE, 0x31); (Sample.RXNE, 0x32); (Sample.RXNE, 0x33)]
            Sample.reset))
  = [0x31; 0x32; 0x33].
Proof.
  split.
  - apply (proj1 (fifo_order Sample.RXNE Sample.TXE Sample.TXEIE)
             Sample.reset [x41; x42; x43]
             [(Sample.TXE, 0); (Sample.TXE, 0); (Sample.TXE, 0)]);
      try (repeat constructor); by_evaluation.
  - apply (proj2 (fifo_order Sample.RXNE Sample.TXE Sample.TXEIE)
             Sample.reset
             [(Sample.RXNE, 0x31); (Sample.RXNE, 0x32); (Sample.RXNE, 0x33)]);
      try (repeat constructor); by_evaluation.
Defined.

(** A character offered to the full transmit buffer. *)
Lemma uart_putch_full_witness :
  0 <= txhead (uart0 Sample.tx_full_machine) < UART_TXBUF_SIZE /\
  tx_full (uart0 Sample.tx_full_machine) /\
  uart_putch Sample.TXEIE x42 Sample.tx_full_machine
  = (char_of_int (-1), Sample.tx_full_machine).
Proof.
  split; [by_evaluation |]. split; [by_evaluation |].
  apply (uart_putch_full Sample.TXEIE x42 Sample.tx_full_machine);
    by_evaluation.
Defined.

(** [uart_getch] on the machine holding the single byte [0xFF]. *)
Lemma uart_getch_spec_witness :
  rxhead (uart0 Sample.rx_ff_machine) <> rxtail (uart0 Sample.rx_ff_machine) /\
  0 <= rxtail (uart0 Sample.rx_ff_machine) < UART_RXBUF_SIZE /\
  fst (uart_getch Sample.rx_ff_machine) = 255 /\
  rxtail (uart0 (snd (uart_getch Sample.rx_ff_machine))) = 1.
Proof.
  assert (Hne : rxhead (uart0 Sample.rx_ff_machine)
                <> rxtail (uart0 Sample.rx_ff_machine)) by by_evaluation.
  assert (Ht : 0 <= rxtail (uart0 Sample.rx_ff_machine) < UART_RXBUF_SIZE)
    by by_evaluation.
  split; [exact Hne |]. split; [exact Ht |].
  destruct (uart_getch_spec Sample.rx_ff_machine) as (_ & _ & Hget).
  destruct (Hget Hne Ht) as [-> _].
  split; reflexivity.
Defined.

(** A byte arriving at the full receive buffer. *)
Lemma rx_overflow_drop_witness :
  let m' := ISR_USART2 Sample.RXNE Sample.TXE Sample.TXEIE Sample.RXNE 0x34
              Sample.rx_full_machine in
  Z.land Sample.RXNE Sample.RXNE <> 0 /\
  0 <= rxhead (uart0 Sample.rx_full_machine) < UART_RXBUF_SIZE /\
  rx_full (uart0 Sample.rx_full_machine) /\
  rxbuf (uart0 m') = replicate 16 x31 /\
  rxhead (uart0 m') = 2 /\
  rxtail (uart0 m') = 3 /\
  serial_rxbytes m' = 8.
Proof.
  cbv zeta.
  assert (H1 : Z.land Sample.RXNE Sample.RXNE <> 0) by by_evaluation.
  assert (H2 : 0 <= rxhead (uart0 Sample.rx_full_machine) < UART_RXBUF_SIZE)
    by by_evaluation.
  assert (H3 : rx_full (uart0 Sample.rx_full_machine)) by by_evaluation.
  split; [exact H1 |]. split; [exact H2 |]. split; [exact H3 |].
  destruct (rx_overflow_drop Sample.RXNE Sample.TXE Sample.TXEIE
              Sample.RXNE 0x34 Sample.rx_full_machine H1 H2 H3)
    as (Hb & Hh & Ht & _ & Hcount & _).
  split; [exact Hb |]. split; [exact Hh |]. split; [exact Ht |].
  apply Hcount. by_evaluation.
Defined.



(** A transmit-ready invocation on the idle reset machine still counts. *)
Lemma tx_counter_increment_witness :
  Z.land Sample.TXE Sample.TXE <> 0 /\
  serial_txbytes
    (ISR_USART2 Sample.RXNE Sample.TXE Sample.TXEIE Sample.TXE 0 Sample.reset)
  = 1.
Proof.
  assert (H1 : Z.land Sample.TXE Sample.TXE <> 0) by by_evaluation.
  split; [exact H1 |].
  destruct (tx_counter_increment Sample.RXNE Sample.TXE Sample.TXEIE
              Sample.TXE 0 Sample.reset H1) as (_ & Hcount & _).
  apply Hcount. by_evaluation.
Defined.

(** The handler on the reset machine, both paths taken. *)
Lemma indices_valid_preserved_witness :
  indices_valid (uart0 Sample.reset) /\
  indices_valid
    (uart0 (ISR_USART2 Sample.RXNE Sample.TXE Sample.TXEIE
              (Z.lor Sample.RXNE Sample.TXE) 0x31 Sample.reset)).
Proof.
  split; [by_evaluation |].
  apply (indices_valid_preserved Sample.RXNE Sample.TXE Sample.TXEIE
           Sample.UE Sample.TE Sample.RE Sample.RXNEIE Sample.reset).
  by_evaluation.
Defined.

(** The pending [0xFF] comes back as 255. *)
Lemma uart_getch_range_witness :
  rxhead (uart0 Sample.rx_ff_machine) <> rxtail (uart0 Sample.rx_ff_machine) /\
  array_get (rxbuf (uart0 Sample.rx_ff_machine))
    (rxtail (uart0 Sample.rx_ff_machine)) = xff /\
  fst (uart_getch Sample.rx_ff_machine) = 255.
Proof.
  assert (Hne : rxhead (uart0 Sample.rx_ff_machine)
                <> rxtail (uart0 Sample.rx_ff_machine)) by by_evaluation.
  split; [exact Hne |]. split; [reflexivity |].
  destruct (uart_getch_range Sample.rx_ff_machine) as (_ & _ & Hff).
  apply Hff; [exact Hne | reflexivity].
Defined.

(** * The further properties on the sample configuration *)

Ltac from_theorem H := vm_compute in H; vm_compute; exact H.

(** Two bytes pending: 125 of 126 further characters are accepted. *)
Lemma uart_putch_free_slots_witness :
  tx_indices_valid
    (uart0 (snd (putch_all Sample.TXEIE [x41; x42] Sample.reset))) /\
  fst (putch_all Sample.TXEIE (replicate 126 x43)
         (snd (putch_all Sample.TXEIE [x41; x42] Sample.reset)))
  = replicate 125 x00 ++ [xff].
Proof.
  assert (Hv : tx_indices_valid
                 (uart0 (snd (putch_all Sample.TXEIE [x41; x42]
                                Sample.reset)))) by by_evaluation.
  split; [exact Hv |].
  pose proof (uart_putch_free_slots Sample.TXEIE _ (replicate 126 x43) Hv)
    as H.
  from_theorem H.
Defined.

(** The first character given to the reset machine. *)
Lemma uart_putch_accepts_witness :
  tx_indices_valid (uart0 Sample.reset) /\
  length (txbuf (uart0 Sample.reset)) = Z.to_nat UART_TXBUF_SIZE /\
  fst (uart_putch Sample.TXEIE x41 Sample.reset) = char_of_int 0 /\
  tx_pending (uart0 (snd (uart_putch Sample.TXEIE x41 Sample.reset)))
  = [x41].
Proof.
  assert (Hv : tx_indices_valid (uart0 Sample.reset)) by by_evaluation.
  assert (Hl : length (txbuf (uart0 Sample.reset))
               = Z.to_nat UART_TXBUF_SIZE) by reflexivity.
  split; [exact Hv |]. split; [exact Hl |].
  destruct (uart_putch_accepts Sample.TXEIE x41 Sample.reset Hv Hl)
    as [Hiff Hacc].
  assert (Hok : fst (uart_putch Sample.TXEIE x41 Sample.reset)
                = char_of_int 0) by (apply Hiff; vm_compute; lia).
  split; [exact Hok |].
  destruct (Hacc Hok) as (Hp & _). exact Hp.
Defined.

(** Two more bytes arriving at the full receive buffer. *)
Lemma rx_overflow_keeps_oldest_witness :
  rx_indices_valid (uart0 Sample.rx_full_machine) /\
  length (rxbuf (uart0 Sample.rx_full_machine)) = Z.to_nat UART_RXBUF_SIZE /\
  rx_pending
    (uart0 (isr_all Sample.RXNE Sample.TXE Sample.TXEIE
              [(Sample.RXNE, 0x34); (Sample.RXNE, 0x35)]
              Sample.rx_full_machine))
  = replicate 15 x31.
Proof.
  assert (Hv : rx_indices_valid (uart0 Sample.rx_full_machine))
    by by_evaluation.
  assert (Hl : length (rxbuf (uart0 Sample.rx_full_machine))
               = Z.to_nat UART_RXBUF_SIZE) by reflexivity.
  split; [exact Hv |]. split; [exact Hl |].
  pose proof (rx_overflow_keeps_oldest Sample.RXNE Sample.TXE Sample.TXEIE
                Sample.rx_full_machine
                [(Sample.RXNE, 0x34); (Sample.RXNE, 0x35)] Hv Hl) as H.
  from_theorem H.
Defined.

(** Three invocations: two receive events, two transmit-ready events. *)
Lemma handler_counts_events_witness :
  0 <= serial_rxbytes Sample.reset < 2 ^ 32 /\
  0 <= serial_txbytes Sample.reset < 2 ^ 32 /\
  serial_rxbytes
    (isr_all Sample.RXNE Sample.TXE Sample.TXEIE
       [(Sample.RXNE, 1); (Sample.TXE, 0);
        (Z.lor Sample.RXNE Sample.TXE, 2)] Sample.reset) = 2 /\
  serial_txbytes
    (isr_all Sample.RXNE Sample.TXE Sample.TXEIE
       [(Sample.RXNE, 1); (Sample.TXE, 0);
        (Z.lor Sample.RXNE Sample.TXE, 2)] Sample.reset) = 2.
Proof.
  assert (Hr : 0 <= serial_rxbytes Sample.reset < 2 ^ 32) by by_evaluation.
  assert (Ht : 0 <= serial_txbytes Sample.reset < 2 ^ 32) by by_evaluation.
  split; [exact Hr |]. split; [exact Ht |].
  pose proof (handler_counts_events Sample.RXNE Sample.TXE Sample.TXEIE
                Sample.reset
                [(Sample.RXNE, 1); (Sample.TXE, 0);
                 (Z.lor Sample.RXNE Sample.TXE, 2)] Hr Ht) as H.
  from_theorem H.
Defined.

(** Two transmit-ready invocations on the full transmit buffer. *)
Lemma tx_drain_prefix_witness :
  tx_indices_valid (uart0 Sample.tx_full_machine) /\
  Forall (tx_event Sample.TXE) [(Sample.TXE, 0); (Sample.TXE, 0)] /\
  usart_dr
    (isr_all Sample.RXNE Sample.TXE Sample.TXEIE
       [(Sample.TXE, 0); (Sample.TXE, 0)] Sample.tx_full_machine)
  = [x41; x41].
Proof.
  assert (Hv : tx_indices_valid (uart0 Sample.tx_full_machine))
    by by_evaluation.
  assert (Hev : Forall (tx_event Sample.TXE)
                  [(Sample.TXE, 0); (Sample.TXE, 0)])
    by (repeat constructor; by_evaluation).
  split; [exact Hv |]. split; [exact Hev |].
  destruct (tx_drain_prefix Sample.RXNE Sample.TXE Sample.TXEIE
              Sample.tx_full_machine _ Hv Hev) as (H & _).
  from_theorem H.
Defined.


(** "A", "B", one byte sent, then "C". *)
Lemma tx_interleaved_fifo_witness :
  well_formed Sample.reset /\
  usart_dr
    (run Sample.RXNE Sample.TXE Sample.TXEIE
       [Putch x41; Putch x42; Interrupt Sample.TXE 0; Putch x43]
       Sample.reset)
  ++ tx_pending
       (uart0 (run Sample.RXNE Sample.TXE Sample.TXEIE
                 [Putch x41; Putch x42; Interrupt Sample.TXE 0; Putch x43]
                 Sample.reset))
  = [x41; x42; x43].
Proof.
  assert (Hwf : well_formed Sample.reset) by by_evaluation.
  split; [exact Hwf |].
  pose proof (tx_interleaved_fifo Sample.RXNE Sample.TXE Sample.TXEIE
                [Putch x41; Putch x42; Interrupt Sample.TXE 0; Putch x43]
                Sample.reset Hwf) as H.
  from_theorem H.
Defined.

(** "1" arrives and is read, a read finds nothing, "2" arrives. *)
Lemma rx_interleaved_fifo_witness :
  well_formed Sample.reset /\
  collect Sample.RXNE Sample.TXE Sample.TXEIE (returned)
    [Interrupt Sample.RXNE 0x31; Getch; Getch; Interrupt Sample.RXNE 0x32]
    Sample.reset
  ++ map int_of_uchar
       (rx_pending
          (uart0 (run Sample.RXNE Sample.TXE Sample.TXEIE
                    [Interrupt Sample.RXNE 0x31; Getch; Getch;
                     Interrupt Sample.RXNE 0x32] Sample.reset)))
  = [0x31; 0x32].
Proof.
  assert (Hwf : well_formed Sample.reset) by by_evaluation.
  split; [exact Hwf |].
  pose proof (rx_interleaved_fifo Sample.RXNE Sample.TXE Sample.TXEIE
                [Interrupt Sample.RXNE 0x31; Getch; Getch;
                 Interrupt Sample.RXNE 0x32] Sample.reset Hwf) as H.
  from_theorem H.
Defined.

(** The full transmit buffer refuses "B", and accepts it after one byte
    was sent. *)
Lemma tx_backpressure_release_witness :
  tx_indices_valid (uart0 Sample.tx_full_machine) /\
  tx_full (uart0 Sample.tx_full_machine) /\
  Z.land Sample.TXE Sample.TXE <> 0 /\
  fst (uart_putch Sample.TXEIE x42 Sample.tx_full_machine)
  = char_of_int (-1) /\
  fst (uart_putch Sample.TXEIE x42
         (ISR_USART2 Sample.RXNE Sample.TXE Sample.TXEIE Sample.TXE 0
            Sample.tx_full_machine))
  = char_of_int 0.
Proof.
  assert (Hv : tx_indices_valid (uart0 Sample.tx_full_machine))
    by by_evaluation.
  assert (Hf : tx_full (uart0 Sample.tx_full_machine)) by by_evaluation.
  assert (Hb : Z.land Sample.TXE Sample.TXE <> 0) by by_evaluation.
  split; [exact Hv |]. split; [exact Hf |]. split; [exact Hb |].
  apply (tx_backpressure_release Sample.RXNE Sample.TXE Sample.TXEIE
           Sample.TXE 0 x42 Sample.tx_full_machine Hv Hf Hb).
Defined.

(** The full receive buffer drops "4"; after one read it stores it. *)
Lemma rx_room_after_getch_witness :
  rx_indices_valid (uart0 Sample.rx_full_machine) /\
  length (rxbuf (uart0 Sample.rx_full_machine)) = Z.to_nat UART_RXBUF_SIZE /\
  rx_full (uart0 Sample.rx_full_machine) /\
  Z.land Sample.RXNE Sample.RXNE <> 0 /\
  rx_pending
    (uart0 (ISR_USART2 Sample.RXNE Sample.TXE Sample.TXEIE Sample.RXNE 0x34
              (snd (uart_getch Sample.rx_full_machine))))
  = replicate 14 x31 ++ [x34].
Proof.
  assert (Hv : rx_indices_valid (uart0 Sample.rx_full_machine))
    by by_evaluation.
  assert (Hl : length (rxbuf (uart0 Sample.rx_full_machine))
               = Z.to_nat UART_RXBUF_SIZE) by reflexivity.
  assert (Hf : rx_full (uart0 Sample.rx_full_machine)) by by_evaluation.
  assert (Hb : Z.land Sample.RXNE Sample.RXNE <> 0) by by_evaluation.
  split; [exact Hv |]. split; [exact Hl |]. split; [exact Hf |].
  split; [exact Hb |].
  destruct (rx_room_after_getch Sample.RXNE Sample.TXE Sample.TXEIE
              Sample.RXNE 0x34 Sample.rx_full_machine Hv Hl Hf Hb)
    as (_ & H).
  from_theorem H.
Defined.

(** Two reads of the machine holding the single byte [0xFF]. *)
Lemma uart_getch_run_witness :
  rx_indices_valid (uart0 Sample.rx_ff_machine) /\
  fst (getch_n 2 Sample.rx_ff_machine) = [255; -1].
Proof.
  assert (Hv : rx_indices_valid (uart0 Sample.rx_ff_machine))
    by by_evaluation.
  split; [exact Hv |].
  destruct (uart_getch_run Sample.rx_ff_machine 2 Hv) as (H & _).
  from_theorem H.
Defined.

(** The handler and a [uart_putch] on the machine with a full receive
    buffer: [rxtail], [txhead], [txbuf] and then [txtail] are kept. *)
Lemma single_writer_witness :
  indices_valid (uart0 Sample.rx_full_machine) /\
  rxtail
    (uart0 (ISR_USART2 Sample.RXNE Sample.TXE Sample.TXEIE
              (Z.lor Sample.RXNE Sample.TXE) 0x34 Sample.rx_full_machine))
  = 3 /\
  txtail (uart0 (snd (uart_putch Sample.TXEIE x41 Sample.rx_full_machine)))
  = 0.
Proof.
  assert (Hv : indices_valid (uart0 Sample.rx_full_machine))
    by by_evaluation.
  split; [exact Hv |].
  destruct (single_writer Sample.RXNE Sample.TXE Sample.TXEIE
              Sample.rx_full_machine Hv) as (Hput & _ & Hisr).
  split.
  - destruct (Hisr (Z.lor Sample.RXNE Sample.TXE) 0x34) as (Ht & _).
    exact Ht.
  - destruct (Hput x41) as (Ht & _). exact Ht.
Defined.
